(** * bvisor: the container kernel of [main.go]

    A shallow embedding of the orchestration kernel (processes, containers,
    the kernel registry, the monitoring loop and messaging) and the
    properties of its operations.

    Go values of pointer type ([*Process], [*Container]) are locations in
    two heaps, so that a process reached through several paths is one
    shared object.  A location outside the domain of its heap plays the
    role of [nil]: dereferencing it panics, which the operations render
    as [None].  The mutexes are not represented: an operation that runs
    under a lock is one atomic step of the model.

    Go's [int] is [Z]: the kernel stores and prints the integers it is
    given and only ever adds 1 to a counter bounded by the length of a
    slice, so no operation can wrap around.  [float64] is the binary64
    type [float]. *)

From Stdlib Require Import ZArith Floats.
From stdpp Require Import gmap strings list fin_maps.

Local Open Scope Z_scope.

(** ** Data model *)

(** Addresses of heap objects. *)
Definition loc := positive.

(** [type ProcessState int] with [Running = iota], [Stopped], [Completed]. *)
Inductive ProcessState := Running | Stopped | Completed.

#[global] Instance ProcessState_eq_dec : EqDecision ProcessState.
Proof. solve_decision. Defined.

(** A Go [func()] is opaque to the kernel.  It is represented by what a
    caller can observe of one call: the lines it prints before it returns,
    or the fact that it never returns. *)
Inductive action :=
| Returns (lines : list string)
| Blocks.

Module Process.
Record t := mk {
  Name : string;
  Priority : Z;
  Action : action;
  State : ProcessState
}.

Definition with_State (s : ProcessState) (p : t) : t :=
  {| Name := Name p; Priority := Priority p; Action := Action p; State := s |}.
End Process.

Module Container.
Record t := mk {
  ID : string;
  Name : string;
  MemoryMB : Z;
  CPULoad : float;
  Processes : list loc
}.

Definition with_Processes (ps : list loc) (c : t) : t :=
  {| ID := ID c; Name := Name c; MemoryMB := MemoryMB c;
     CPULoad := CPULoad c; Processes := ps |}.
End Container.

(** [type Kernel struct { Containers map[string]*Container; ... }] *)
Record Kernel := mkKernel {
  Containers : gmap string loc
}.

(** What the kernel writes to standard output, one value per [Printf] or
    [Println] call, with the arguments of the format kept apart. *)
Inductive observation :=
| Created (name : string)
      (* "[Kernel] Created container: %s" *)
| Starting (name : string)
      (* "[Kernel] Starting container: %s" *)
| Stopping (name : string)
      (* "[Kernel] Stopping container: %s" *)
| MonitorHeader
      (* "=== Kernel Monitoring ===" *)
| MonitorRow (name : string) (memory : Z) (cpu : float) (active : Z)
      (* "Container %s | Memory: %dMB | CPU: %.2f%% | Running Processes: %d" *)
| Message (fromName toName msg : string)
      (* "[Kernel] %s -> %s : %s" *)
| MessagingError
      (* "[Kernel] Messaging error: container not found" *)
| Printed (line : string).
      (* a line written by a process's action *)

(** The state of a run: both heaps, the kernel, standard output, the
    goroutines started by [StartProcesses] that have not finished yet
    (each holds the process it was started for), and the number of
    [range] loops over the registry executed so far. *)
Record world := mkWorld {
  procs : gmap loc Process.t;
  conts : gmap loc Container.t;
  kernel : Kernel;
  stdout : list observation;
  goroutines : list loc;
  ranges : nat
}.

Definition upd_procs (f : gmap loc Process.t → gmap loc Process.t) (w : world) : world :=
  {| procs := f (procs w); conts := conts w; kernel := kernel w;
     stdout := stdout w; goroutines := goroutines w; ranges := ranges w |}.

Definition upd_conts (f : gmap loc Container.t → gmap loc Container.t) (w : world) : world :=
  {| procs := procs w; conts := f (conts w); kernel := kernel w;
     stdout := stdout w; goroutines := goroutines w; ranges := ranges w |}.

Definition upd_kernel (f : Kernel → Kernel) (w : world) : world :=
  {| procs := procs w; conts := conts w; kernel := f (kernel w);
     stdout := stdout w; goroutines := goroutines w; ranges := ranges w |}.

Definition emit (o : observation) (w : world) : world :=
  {| procs := procs w; conts := conts w; kernel := kernel w;
     stdout := stdout w ++ [o]; goroutines := goroutines w; ranges := ranges w |}.

Definition upd_goroutines (f : list loc → list loc) (w : world) : world :=
  {| procs := procs w; conts := conts w; kernel := kernel w;
     stdout := stdout w; goroutines := f (goroutines w); ranges := ranges w |}.

Definition next_range (w : world) : world :=
  {| procs := procs w; conts := conts w; kernel := kernel w;
     stdout := stdout w; goroutines := goroutines w; ranges := S (ranges w) |}.

(** ** Container operations *)

(** [func (c *Container) AddProcess(p *Process)] *)
Definition AddProcess (c p : loc) (w : world) : option world :=
  cv ← conts w !! c;
  pv ← procs w !! p;
  let w1 := upd_procs <[p := Process.with_State Running pv]> w in
  Some (upd_conts
          <[c := Container.with_Processes (Container.Processes cv ++ [p]) cv]> w1).

(** [for _, x := range l { body }] over a slice: the body runs on every
    element in order, and a panic in one iteration ends the loop. *)
Fixpoint for_range {A} (l : list A) (body : A → world → option world)
    (w : world) : option world :=
  match l with
  | [] => Some w
  | x :: l' => w1 ← body x w; for_range l' body w1
  end.

(** [go func(proc *Process) { ... }(p)]: the new goroutine joins the
    pending ones; its body runs later, see [goroutine_return]. *)
Definition go (p : loc) : world → world :=
  upd_goroutines (λ g, g ++ [p]).

(** The body of the loop of [StartProcesses]. *)
Definition StartProcesses_body (p : loc) (w : world) : option world :=
  pv ← procs w !! p;
  if decide (Process.State pv = Running) then Some (go p w) else Some w.

(** [func (c *Container) StartProcesses()] *)
Definition StartProcesses (c : loc) (w : world) : option world :=
  cv ← conts w !! c;
  for_range (Container.Processes cv) StartProcesses_body w.

(** The body of the loop of [StopProcesses]. *)
Definition StopProcesses_body (p : loc) (w : world) : option world :=
  pv ← procs w !! p;
  if decide (Process.State pv = Running)
  then Some (upd_procs <[p := Process.with_State Stopped pv]> w)
  else Some w.

(** [func (c *Container) StopProcesses()] *)
Definition StopProcesses (c : loc) (w : world) : option world :=
  cv ← conts w !! c;
  for_range (Container.Processes cv) StopProcesses_body w.

(** The body of the goroutine started by [StartProcesses], taken as one
    step at the moment the action returns:
    [proc.Action(); proc.State = Completed].  [i] is the position of the
    goroutine among the pending ones.  The step cannot be taken when the
    action never returns. *)
Definition goroutine_return (i : nat) (w : world) : option world :=
  p ← goroutines w !! i;
  pv ← procs w !! p;
  match Process.Action pv with
  | Returns lines =>
      let w1 := foldl (λ w l, emit (Printed l) w) w lines in
      Some (upd_goroutines (delete i)
              (upd_procs <[p := Process.with_State Completed pv]> w1))
  | Blocks => None
  end.

(** [&Process{...}]: a new process object, as [exampleProcess] builds. *)
Definition new_Process (pv : Process.t) (w : world) : loc * world :=
  let p := fresh (dom (procs w)) in
  (p, upd_procs <[p := pv]> w).

(** ** Kernel operations *)

(** [func NewKernel() *Kernel], in a run that has done nothing yet. *)
Definition NewKernel : world :=
  {| procs := ∅; conts := ∅; kernel := mkKernel ∅;
     stdout := []; goroutines := []; ranges := 0 |}.

(** [func (k *Kernel) CreateContainer(id, name string, memory int) *Container] *)
Definition CreateContainer (id name : string) (memory : Z) (w : world)
    : loc * world :=
  let c := fresh (dom (conts w)) in
  let w1 := upd_conts <[c := Container.mk id name memory 0%float []]> w in
  let w2 := upd_kernel (λ k, mkKernel (<[id := c]> (Containers k))) w1 in
  (c, emit (Created name) w2).

(** [func (k *Kernel) SendMessage(fromID, toID, msg string)] *)
Definition SendMessage (fromID toID msg : string) (w : world) : option world :=
  match Containers (kernel w) !! fromID, Containers (kernel w) !! toID with
  | Some from, Some to =>
      fv ← conts w !! from;
      tv ← conts w !! to;
      Some (emit (Message (Container.Name fv) (Container.Name tv) msg) w)
  | _, _ => Some (emit MessagingError w)
  end.

(** The inner loop of [Monitor]: [active] counts the processes of the
    slice whose state is [Running]. *)
Fixpoint count_active (ps : list loc) (w : world) (active : Z) : option Z :=
  match ps with
  | [] => Some active
  | p :: ps' =>
      pv ← procs w !! p;
      count_active ps' w
        (if decide (Process.State pv = Running) then active + 1 else active)
  end.

(** The body of the loop of [Monitor] over the containers: count the
    running processes, print the row. *)
Definition Monitor_row (c : loc) (w : world) : option world :=
  cv ← conts w !! c;
  active ← count_active (Container.Processes cv) w 0;
  Some (emit (MonitorRow (Container.Name cv) (Container.MemoryMB cv)
                (Container.CPULoad cv) active) w).

(** The atomic steps of a run: the calls of the operations by any
    goroutine, and the return of a process's action. *)
Inductive event :=
| NewProcess (pv : Process.t)
| CallAddProcess (c p : loc)
| CallStartProcesses (c : loc)
| CallStopProcesses (c : loc)
| CallCreateContainer (id name : string) (memory : Z)
| CallStartAll
| CallStopAll
| CallSendMessage (fromID toID msg : string)
| MonitorSnapshot
| ActionReturns (i : nat).

Section Runtime.

(** Go leaves the order of a [range] over a map unspecified.
    [range_order n l] is the order in which the [n]-th such loop of the
    run visits the entries [l] of the map. *)
Variable range_order : nat → list (string * loc) → list (string * loc).

(** [time.Sleep(d)] as its caller sees it: what the other goroutines do
    to the state while the caller is suspended. *)
Variable Sleep : Z → world → world.

(** [for _, c := range k.Containers { body }] *)
Definition range_Containers (body : loc → world → option world)
    (w : world) : option world :=
  for_range (range_order (ranges w) (map_to_list (Containers (kernel w))))
    (λ kc, body kc.2) (next_range w).

(** [func (k *Kernel) StartAll()] *)
Definition StartAll (w : world) : option world :=
  range_Containers
    (λ c w,
       cv ← conts w !! c;
       StartProcesses c (emit (Starting (Container.Name cv)) w))
    w.

(** [func (k *Kernel) StopAll()] *)
Definition StopAll (w : world) : option world :=
  range_Containers
    (λ c w,
       cv ← conts w !! c;
       StopProcesses c (emit (Stopping (Container.Name cv)) w))
    w.

(** One iteration of the loop of [Monitor], up to the call of
    [time.Sleep]: the header, then a row for each container. *)
Definition Monitor_snapshot (w : world) : option world :=
  range_Containers Monitor_row (emit MonitorHeader w).

(** [for i := 0; i < cycles; i++ { body }] runs its body [n] times for
    [n = Z.to_nat cycles], none when [cycles <= 0]. *)
Fixpoint Monitor_loop (interval : Z) (n : nat) (w : world) : option world :=
  match n with
  | O => Some w
  | S n' =>
      w1 ← Monitor_snapshot w;
      Monitor_loop interval n' (Sleep interval w1)
  end.

(** [func (k *Kernel) Monitor(interval time.Duration, cycles int)] *)
Definition Monitor (interval cycles : Z) (w : world) : option world :=
  Monitor_loop interval (Z.to_nat cycles) w.

(** One step of a run.  [None]: the step panics, or it is the return of
    an action that never returns. *)
Definition exec (e : event) (w : world) : option world :=
  match e with
  | NewProcess pv => Some (new_Process pv w).2
  | CallAddProcess c p => AddProcess c p w
  | CallStartProcesses c => StartProcesses c w
  | CallStopProcesses c => StopProcesses c w
  | CallCreateContainer id name memory => Some (CreateContainer id name memory w).2
  | CallStartAll => StartAll w
  | CallStopAll => StopAll w
  | CallSendMessage fromID toID msg => SendMessage fromID toID msg w
  | MonitorSnapshot => Monitor_snapshot w
  | ActionReturns i => goroutine_return i w
  end.

(** The steps [es] one after the other. *)
Fixpoint run (es : list event) (w : world) : option world :=
  match es with
  | [] => Some w
  | e :: es' => w1 ← exec e w; run es' w1
  end.

End Runtime.

(** [func exampleProcess(name string, duration time.Duration) *Process];
    [priority] is the value drawn by [rand.Intn(10)], and the duration of
    the sleep between the two lines is not represented. *)
Definition exampleProcess (name : string) (priority : Z) : Process.t :=
  Process.mk name priority
    (Returns ["Process " +:+ name +:+ " started";
              "Process " +:+ name +:+ " completed"])
    Running.

(** The set-up of [main]: two containers with two processes each. *)
Definition demo : world :=
  let '(c1, w) := CreateContainer "c1" "WebServer" 512 NewKernel in
  let '(c2, w) := CreateContainer "c2" "Database" 1024 w in
  let add c name w :=
    let '(p, w) := new_Process (exampleProcess name 5) w in
    default w (AddProcess c p w) in
  add c2 "Backup" (add c2 "DB Engine" (add c1 "Worker" (add c1 "HTTP Server" w))).

(** A runtime whose [range] loops visit the registry in the order of
    [map_to_list], and a run in which no other goroutine does anything
    while the caller sleeps. *)
Definition in_order : nat → list (string * loc) → list (string * loc) :=
  λ _ l, l.

Definition no_sleep : Z → world → world :=
  λ _ w, w.

(** The state in which container [c1] of [demo] has been stopped: its
    two processes are [Stopped] and still in its slice. *)
Definition demo_stopped : world :=
  default demo (StopProcesses 1%positive demo).

(** [demo] after [StartProcesses] then [StopProcesses] on container 1:
    processes 1 and 2 are [Stopped], and the goroutines started for them
    are still pending. *)
Definition demo_interrupted : world :=
  default demo
    (run in_order [CallStartProcesses 1%positive; CallStopProcesses 1%positive] demo).

(** ** Notions used in the statements *)

(** The state of a process, [None] for [nil]. *)
Definition state_of (w : world) (p : loc) : option ProcessState :=
  Process.State <$> procs w !! p.

(** *** Validity of pointers

    Go has no dangling pointers: a pointer is [nil] or refers to a live
    object, and the kernel never stores [nil].  The predicates below say
    so for the pointers an operation follows. *)

(** Every process of the slice is a live object. *)
Definition procs_ok (w : world) (ps : list loc) : Prop :=
  Forall (λ p, is_Some (procs w !! p)) ps.

(** Every registered container is a live object, and so are its
    processes. *)
Definition registry_ok (w : world) : Prop :=
  map_Forall
    (λ _ c, match conts w !! c with
            | Some cv => procs_ok w (Container.Processes cv)
            | None => False
            end)
    (Containers (kernel w)).

#[global] Instance procs_ok_dec w ps : Decision (procs_ok w ps).
Proof. unfold procs_ok. apply _. Defined.

#[global] Instance registry_ok_dec w : Decision (registry_ok w).
Proof.
  unfold registry_ok. apply map_Forall_dec. intros _ c.
  destruct (conts w !! c); apply _.
Defined.

(** The kernel and container state: everything but standard output and
    the bookkeeping of the runtime. *)
Definition same_state (w w' : world) : Prop :=
  procs w' = procs w ∧ conts w' = conts w ∧ kernel w' = kernel w.

(** What [StopProcesses] on the slice [ps] does to one process object. *)
Definition stopped_in (ps : list loc) (p : loc) (pv : Process.t) : Process.t :=
  if decide (p ∈ ps ∧ Process.State pv = Running)
  then Process.with_State Stopped pv else pv.

(** The number of processes of the slice that are [Running] in [w]. *)
Definition running_count (w : world) (ps : list loc) : Z :=
  Z.of_nat (length (filter (λ p, state_of w p = Some Running) ps)).

(** The row of a container in a snapshot taken in [w]. *)
Definition row_of (w : world) (cv : Container.t) : observation :=
  MonitorRow (Container.Name cv) (Container.MemoryMB cv) (Container.CPULoad cv)
    (running_count w (Container.Processes cv)).

(** The rows among the printed lines. *)
Definition is_MonitorRow (o : observation) : bool :=
  match o with MonitorRow _ _ _ _ => true | _ => false end.

(** The registered containers, one entry per id of the registry. *)
Definition registered (w : world) : list Container.t :=
  omap (λ kc, conts w !! kc.2) (map_to_list (Containers (kernel w))).

(** A snapshot block of [w]: the header, then one row for each registered
    container, in any order. *)
Definition snapshot_block (w : world) (block : list observation) : Prop :=
  ∃ rows, block = MonitorHeader :: rows ∧ rows ≡ₚ row_of w <$> registered w.

(** [w] after one more [range] over the registry that has printed [obs]
    and done nothing else. *)
Definition observe (obs : list observation) (w : world) : world :=
  {| procs := procs w; conts := conts w; kernel := kernel w;
     stdout := stdout w ++ obs; goroutines := goroutines w;
     ranges := S (ranges w) |}.

(** A run of [n] iterations of the loop of [Monitor]: each iteration
    prints a snapshot block of the state it finds and changes nothing
    else, then sleeps. *)
Inductive Monitor_run (Sleep : Z → world → world) (interval : Z)
    : nat → world → world → Prop :=
| Monitor_run_done w :
    Monitor_run Sleep interval 0 w w
| Monitor_run_cycle n w block w' :
    snapshot_block w block →
    Monitor_run Sleep interval n (Sleep interval (observe block w)) w' →
    Monitor_run Sleep interval (S n) w w'.

(** [w'] differs from [w] in no process object, and every goroutine
    pending in [w] is pending in [w']. *)
Definition keeps (w w' : world) : Prop :=
  procs w' = procs w ∧ ∀ p, p ∈ goroutines w → p ∈ goroutines w'.

(** From [w] to [w'] a process object can only have gone from [Running]
    to [Stopped]; the pending goroutines are the same. *)
Definition stops (w w' : world) : Prop :=
  (∀ p pv, procs w !! p = Some pv →
     ∃ s', procs w' !! p = Some (Process.with_State s' pv) ∧
       (s' = Process.State pv ∨ Process.State pv = Running ∧ s' = Stopped)) ∧
  goroutines w' = goroutines w.

(** The change of state that event [e], taken in [w], can make to
    process [p]: none; [Running] to [Stopped] by a stop; any state to
    [Completed] when the action of a goroutine started for [p] returns;
    any state to [Running] when [p] is passed to [AddProcess]. *)
Definition transition (e : event) (w : world) (p : loc)
    (s s' : ProcessState) : Prop :=
  s' = s ∨
  match e with
  | CallStopProcesses _ | CallStopAll => s = Running ∧ s' = Stopped
  | ActionReturns i => goroutines w !! i = Some p ∧ s' = Completed
  | CallAddProcess _ q => q = p ∧ s' = Running
  | _ => False
  end.

(** The calls of the main goroutine of [main], in order, with the five
    snapshots of [Monitor(1*time.Second, 5)]; [priority] stands for the
    values drawn by [rand.Intn(10)].  The steps of the other goroutines
    come in between in a run. *)
Definition main_calls (priority : Z) : list event :=
  [CallCreateContainer "c1" "WebServer" 512;
   CallCreateContainer "c2" "Database" 1024;
   NewProcess (exampleProcess "HTTP Server" priority);
   CallAddProcess 1%positive 1%positive;
   NewProcess (exampleProcess "Worker" priority);
   CallAddProcess 1%positive 2%positive;
   NewProcess (exampleProcess "DB Engine" priority);
   CallAddProcess 2%positive 3%positive;
   NewProcess (exampleProcess "Backup" priority);
   CallAddProcess 2%positive 4%positive;
   CallStartAll;
   CallSendMessage "c1" "c2" "Query: SELECT * FROM users;";
   CallSendMessage "c2" "c1" "Response: 42 records returned.";
   MonitorSnapshot; MonitorSnapshot; MonitorSnapshot; MonitorSnapshot;
   MonitorSnapshot;
   CallStopAll].

(** The state after the calls of [main], with no step of another
    goroutine in between. *)
Definition after_main_calls : world :=
  default NewKernel (run in_order (main_calls 5) NewKernel).

(** ** The resource simulator of [main]

    The anonymous goroutine of [main] rewrites the counters of every
    registered container, five times.  One iteration of its loop, up to
    the call of [time.Sleep], is [simulate]. *)

(** Go's [int] on a 64-bit platform: the result of an addition or a
    subtraction, wrapped around. *)
Definition int_wrap (z : Z) : Z :=
  (z + 2 ^ 63) mod 2 ^ 64 - 2 ^ 63.

Definition Container_with_CPULoad (x : float) (c : Container.t) : Container.t :=
  Container.mk (Container.ID c) (Container.Name c) (Container.MemoryMB c) x
    (Container.Processes c).

Definition Container_with_MemoryMB (m : Z) (c : Container.t) : Container.t :=
  Container.mk (Container.ID c) (Container.Name c) m (Container.CPULoad c)
    (Container.Processes c).

(** What one visit of the simulator does to a container object, for the
    values [r] of [rand.Float64()] and [n] of [rand.Intn(50)]:
    [c.CPULoad = r * 100; c.MemoryMB = c.MemoryMB + n - 25]. *)
Definition simulated (r : float) (n : Z) (cv : Container.t) : Container.t :=
  let cv1 := Container_with_CPULoad (r * 100)%float cv in
  Container_with_MemoryMB
    (int_wrap (int_wrap (Container.MemoryMB cv1 + n) - 25)) cv1.

(** The body of the loop of the simulator over the registry.  The loop
    visits every id once, so the values drawn from [math/rand] during one
    iteration are given per id: [rand_Float64 id] and [rand_Intn id]. *)
Definition simulate_body (rand_Float64 : string → float) (rand_Intn : string → Z)
    (kc : string * loc) (w : world) : option world :=
  cv ← conts w !! kc.2;
  Some (upd_conts <[kc.2 := simulated (rand_Float64 kc.1) (rand_Intn kc.1) cv]> w).

(** [for _, c := range kernel.Containers { ... }] of the simulator. *)
Definition simulate (range_order : nat → list (string * loc) → list (string * loc))
    (rand_Float64 : string → float) (rand_Intn : string → Z)
    (w : world) : option world :=
  for_range (range_order (ranges w) (map_to_list (Containers (kernel w))))
    (simulate_body rand_Float64 rand_Intn) (next_range w).

(** The steps of the goroutines that run beside the main one: the
    events of a run, and the iterations of the simulator with the values
    they draw. *)
Inductive activity :=
| Step (e : event)
| Simulate (rand_Float64 : string → float) (rand_Intn : string → Z).

Definition act (range_order : nat → list (string * loc) → list (string * loc))
    (a : activity) (w : world) : option world :=
  match a with
  | Step e => exec range_order e w
  | Simulate rand_Float64 rand_Intn => simulate range_order rand_Float64 rand_Intn w
  end.


(** ** More notions used in the statements *)

(** A step that changes the counters of containers at most. *)
Definition recounts (w w' : world) : Prop :=
  procs w' = procs w ∧ kernel w' = kernel w ∧
  ∀ c, Container.Processes <$> conts w' !! c
       = Container.Processes <$> conts w !! c.


(** The processes of the slice that are [Running] in [w], in order. *)
Definition running (w : world) (ps : list loc) : list loc :=
  filter (λ p, state_of w p = Some Running) ps.

(** The processes held by the registered containers. *)
Definition held (w : world) : list loc :=
  registered w ≫= Container.Processes.

(** The registry entries that lead to a live container with live
    processes. *)
Definition entry_ok (w : world) (kc : string * loc) : Prop :=
  ∃ cv, conts w !! kc.2 = Some cv ∧ procs_ok w (Container.Processes cv).

(** The events that start goroutines. *)
Definition is_start (e : event) : bool :=
  match e with
  | CallStartProcesses _ | CallStartAll => true
  | _ => false
  end.

(** The calls of [CreateContainer] for a list of (id, name, memory). *)
Definition creations (specs : list (string * (string * Z))) : list event :=
  (λ s, CallCreateContainer s.1 s.2.1 s.2.2) <$> specs.

(** The invariant of the states of a run: every id of the registry leads
    to a live container that carries this id; the processes of every
    container, registered or not, and the processes of the pending
    goroutines are live. *)
Definition kernel_inv (w : world) : Prop :=
  (∀ id c, Containers (kernel w) !! id = Some c →
     ∃ cv, conts w !! c = Some cv ∧ Container.ID cv = id) ∧
  (∀ c cv, conts w !! c = Some cv → procs_ok w (Container.Processes cv)) ∧
  procs_ok w (goroutines w).

(** A step that leaves containers, registry and pending goroutines as
    they are, creates and removes no process, and only adds to standard
    output. *)
Definition quiet (w w' : world) : Prop :=
  conts w' = conts w ∧ kernel w' = kernel w ∧ goroutines w' = goroutines w ∧
  (∀ p, is_Some (procs w' !! p) ↔ is_Some (procs w !! p)) ∧
  stdout w `prefix_of` stdout w'.

(** A step that leaves processes, containers and registry as they are,
    starts goroutines for processes that are [Running], and only adds to
    standard output. *)
Definition starts (w w' : world) : Prop :=
  procs w' = procs w ∧ conts w' = conts w ∧ kernel w' = kernel w ∧
  goroutines w `prefix_of` goroutines w' ∧
  (∀ p, p ∈ goroutines w' → p ∈ goroutines w ∨ state_of w p = Some Running) ∧
  stdout w `prefix_of` stdout w'.

(** From [w] to [w'] nothing has been removed: standard output, the ids
    of the registry, the process objects and the container objects are
    still there, no container has changed but for processes appended to
    its slice. *)
Definition grows (w w' : world) : Prop :=
  stdout w `prefix_of` stdout w' ∧
  (∀ id, is_Some (Containers (kernel w) !! id) →
         is_Some (Containers (kernel w') !! id)) ∧
  (∀ p, is_Some (procs w !! p) → is_Some (procs w' !! p)) ∧
  (∀ c cv, conts w !! c = Some cv →
     ∃ cv', conts w' !! c = Some cv' ∧
       Container.ID cv' = Container.ID cv ∧
       Container.Name cv' = Container.Name cv ∧
       Container.MemoryMB cv' = Container.MemoryMB cv ∧
       Container.CPULoad cv' = Container.CPULoad cv ∧
       Container.Processes cv `prefix_of` Container.Processes cv').

(** The shape of one step of a run. *)
Inductive step_shape (w w' : world) : event → Prop :=
| shape_quiet e :
    quiet w w' → is_start e = false → step_shape w w' e
| shape_starts e :
    starts w w' → is_start e = true → step_shape w w' e
| shape_new pv :
    w' = (new_Process pv w).2 → step_shape w w' (NewProcess pv)
| shape_add c p cv pv :
    conts w !! c = Some cv → procs w !! p = Some pv →
    w' = upd_conts
           <[c := Container.with_Processes (Container.Processes cv ++ [p]) cv]>
           (upd_procs <[p := Process.with_State Running pv]> w) →
    step_shape w w' (CallAddProcess c p)
| shape_create id name memory :
    w' = (CreateContainer id name memory w).2 →
    step_shape w w' (CallCreateContainer id name memory)
| shape_return i p pv lines :
    goroutines w !! i = Some p → procs w !! p = Some pv →
    Process.Action pv = Returns lines →
    procs w' = <[p := Process.with_State Completed pv]> (procs w) →
    goroutines w' = delete i (goroutines w) →
    conts w' = conts w → kernel w' = kernel w →
    stdout w' = stdout w ++ (Printed <$> lines) →
    step_shape w w' (ActionReturns i).

(** ** The goroutine of a process, step by step

    [goroutine_return] takes the body of the goroutine started by
    [StartProcesses] at once.  Here the same body,
    [proc.Action(); proc.State = Completed], is taken statement by
    statement, so that the rest of the program can act between any two of
    its steps. *)

(** Where the goroutine stands: started by the [go] statement and not
    run yet; inside the action, with these lines still to print; inside
    an action that never returns; past its last statement. *)
Inductive phase :=
| Spawned
| Printing (lines : list string)
| Blocked
| Done.

(** One step of the goroutine started for [p]: the call of the action,
    which reads the field [Action]; one line printed by the action; the
    return of the action followed by [proc.State = Completed].  The
    goroutine takes no lock, so no step of it can be held up. *)
Definition goroutine_step (p : loc) (ph : phase) (w : world)
    : option (phase * world) :=
  match ph with
  | Spawned =>
      pv ← procs w !! p;
      Some (match Process.Action pv with
            | Returns lines => Printing lines
            | Blocks => Blocked
            end, w)
  | Printing (l :: ls) => Some (Printing ls, emit (Printed l) w)
  | Printing [] =>
      pv ← procs w !! p;
      Some (Done, upd_procs <[p := Process.with_State Completed pv]> w)
  | Blocked | Done => None
  end.

(** The goroutine has a next statement to execute. *)
Definition active (ph : phase) : Prop :=
  match ph with
  | Spawned | Printing _ => True
  | Blocked | Done => False
  end.

(** [n] steps of the goroutine in a row. *)
Fixpoint goroutine_steps (n : nat) (p : loc) (s : phase * world)
    : option (phase * world) :=
  match n with
  | O => Some s
  | S n' => s1 ← goroutine_step p s.1 s.2; goroutine_steps n' p s1
  end.

(** The process [p] is live in [w] and its action prints [lines] and
    returns. *)
Definition returning (lines : list string) (p : loc) (w : world) : Prop :=
  ∃ pv, procs w !! p = Some pv ∧ Process.Action pv = Returns lines.

(** The number of steps the goroutine of a process whose action prints
    [lines] still has to take. *)
Definition steps_left (lines : list string) (ph : phase) : nat :=
  match ph with
  | Spawned => S (S (length lines))
  | Printing ls => S (length ls)
  | Blocked | Done => O
  end.

(** An unending run of the goroutine started for [p] beside the rest of
    the program, from the state [w0] in which it has just been started.
    [steps n] is where the goroutine stands and the state after [n]
    steps.  Step [n] is a step of the goroutine when [mine n], and
    otherwise a step [env] of the rest of the program, of any size, which
    leaves the goroutine where it stands.  The scheduler is fair: as long
    as the goroutine has a next statement, it gets to execute it at some
    later step. *)
Definition fair_run (env : world → world → Prop) (p : loc) (w0 : world)
    (steps : nat → phase * world) (mine : nat → bool) : Prop :=
  steps O = (Spawned, w0) ∧
  (∀ n, mine n = true →
        goroutine_step p (steps n).1 (steps n).2 = Some (steps (S n))) ∧
  (∀ n, mine n = false →
        (steps (S n)).1 = (steps n).1 ∧ env (steps n).2 (steps (S n)).2) ∧
  (∀ n, active (steps n).1 → ∃ m, (n ≤ m)%nat ∧ mine m = true).

(** What the rest of the program never does to a process [p], whatever
    the size of its steps: free it, or assign its field [Action]. *)
Definition keeps_action (env : world → world → Prop) (p : loc) : Prop :=
  ∀ v v' pv, env v v' → procs v !! p = Some pv →
    ∃ pv', procs v' !! p = Some pv' ∧ Process.Action pv' = Process.Action pv.

(** The steps of the rest of the program that are whole operations,
    returns of other actions or iterations of the simulator. *)
Definition beside (range_order : nat → list (string * loc) → list (string * loc))
    (v v' : world) : Prop :=
  ∃ a, act range_order a v = Some v'.

(** A run of the goroutine of "HTTP Server" in the scenario of [main]:
    container c1 is started, then stopped before the goroutine has run;
    the goroutine calls the action and prints its first line, a message
    is sent, the goroutine prints its second line and sets the state;
    from then on the rest of the program goes on alone. *)
Definition demo_started : world :=
  default demo (StartProcesses 1%positive demo).

(** [None]: a step of the goroutine; [Some a]: the step [a] of the rest. *)
Definition demo_schedule (n : nat) : option activity :=
  match n with
  | 0%nat => Some (Step (CallStopProcesses 1%positive))
  | 1%nat | 2%nat => None
  | 3%nat => Some (Step (CallSendMessage "c1" "c2" "ping"))
  | 4%nat | 5%nat => None
  | _ => Some (Step (NewProcess (exampleProcess "idle" 0)))
  end.

Definition demo_mine (n : nat) : bool :=
  match demo_schedule n with None => true | Some _ => false end.

Fixpoint demo_steps (n : nat) : phase * world :=
  match n with
  | O => (Spawned, demo_started)
  | S n' =>
      match demo_schedule n' with
      | None =>
          default (demo_steps n')
            (goroutine_step 1%positive (demo_steps n').1 (demo_steps n').2)
      | Some a =>
          ((demo_steps n').1,
           default (demo_steps n').2 (act in_order a (demo_steps n').2))
      end
  end.



(** ** The scenario of [main] *)

Example demo_registry :
  map_to_list (Containers (kernel demo)) = [("c1", 1%positive); ("c2", 2%positive)]
  ∧ stdout demo = [Created "WebServer"; Created "Database"].
Proof. split; vm_compute; reflexivity. Qed.

Lemma demo_c1 :
  conts demo !! 1%positive
  = Some (Container.mk "c1" "WebServer" 512 0%float [1%positive; 2%positive]).
Proof. vm_compute. reflexivity. Qed.

Lemma demo_ok : registry_ok demo.
Proof. apply (bool_decide_unpack _). vm_compute. reflexivity. Defined.

Example demo_messages :
  stdout <$> (w ← SendMessage "c1" "c2" "ping" demo; SendMessage "x" "c2" "ping" w)
  = Some (stdout demo ++ [Message "WebServer" "Database" "ping"; MessagingError]).
Proof. vm_compute. reflexivity. Qed.

Example demo_monitor :
  stdout <$> (w ← StartAll in_order demo; Monitor in_order no_sleep 1000 2 w)
  = Some (stdout demo ++
          [Starting "WebServer"; Starting "Database";
           MonitorHeader;
           MonitorRow "WebServer" 512 0 2; MonitorRow "Database" 1024 0 2;
           MonitorHeader;
           MonitorRow "WebServer" 512 0 2; MonitorRow "Database" 1024 0 2]).
Proof. vm_compute. reflexivity. Qed.

(** The action of "HTTP Server" returns while the monitor sleeps after
    its first snapshot: the second snapshot counts one running process
    in "WebServer". *)
Example demo_monitor_interleaved :
  let Sleep := λ (_ : Z) w, default w (goroutine_return 0 w) in
  filter is_MonitorRow <$> (stdout <$> (w ← StartAll in_order demo; Monitor in_order Sleep 1000 2 w))
  = Some [MonitorRow "WebServer" 512 0 2; MonitorRow "Database" 1024 0 2;
          MonitorRow "WebServer" 512 0 1; MonitorRow "Database" 1024 0 2].
Proof. vm_compute. reflexivity. Qed.

Example demo_stop_all :
  (w ← StartAll in_order demo; w ← StopAll in_order w;
   Some (state_of w <$> [1; 2; 3; 4]%positive, goroutines w))
  = Some ([Some Stopped; Some Stopped; Some Stopped; Some Stopped],
          [1; 2; 3; 4]%positive).
Proof. vm_compute. reflexivity. Qed.

(** ** General facts *)

Lemma world_eq (w w' : world) :
  procs w = procs w' → conts w = conts w' → kernel w = kernel w' →
  stdout w = stdout w' → goroutines w = goroutines w' → ranges w = ranges w' →
  w = w'.
Proof. destruct w, w'; simpl; intros; subst; reflexivity. Qed.

Lemma for_range_inv {A} (R : world → world → Prop)
    `{!Reflexive R, !Transitive R} (l : list A) body w w' :
  (∀ x v v1, x ∈ l → body x v = Some v1 → R v v1) →
  for_range l body w = Some w' → R w w'.
Proof.
  revert w. induction l as [|x l IH]; simpl; intros w Hbody Hrun.
  - injection Hrun as <-. reflexivity.
  - destruct (body x w) as [w1|] eqn:E; simpl in Hrun; [|discriminate].
    transitivity w1.
    + eapply Hbody; [left|exact E].
    + apply IH; [|exact Hrun]. intros y v v1 Hy. apply Hbody. by right.
Qed.

(** ** StopProcesses *)

Lemma StopProcesses_range ps w :
  procs_ok w ps →
  ∃ w', for_range ps StopProcesses_body w = Some w' ∧
    (∀ p, procs w' !! p = stopped_in ps p <$> procs w !! p) ∧
    conts w' = conts w ∧ kernel w' = kernel w ∧ stdout w' = stdout w ∧
    goroutines w' = goroutines w ∧ ranges w' = ranges w.
Proof.
  revert w. induction ps as [|q ps IH]; intros w Hok.
  - exists w. split; [reflexivity|]. split; [|done].
    intros p. destruct (procs w !! p) as [pv|]; [|done].
    change (Some pv = Some (stopped_in [] p pv)). f_equal.
  - apply Forall_cons in Hok as [[qv Hq] Hok].
    set (w1 := if decide (Process.State qv = Running)
               then upd_procs <[q := Process.with_State Stopped qv]> w else w).
    assert (Hw1 : ∀ p, procs w1 !! p =
              (if decide (p = q ∧ Process.State qv = Running)
               then Some (Process.with_State Stopped qv) else procs w !! p)).
    { intros p. unfold w1. destruct (decide (Process.State qv = Running)) as [Hr|Hr].
      - simpl. destruct (decide (p = q)) as [->|Hne].
        + rewrite lookup_insert_eq. by rewrite decide_True.
        + rewrite lookup_insert_ne by done. rewrite decide_False; [done|]. by intros [? _].
      - rewrite decide_False; [done|]. by intros [_ ?]. }
    assert (Hrest : conts w1 = conts w ∧ kernel w1 = kernel w ∧ stdout w1 = stdout w ∧
              goroutines w1 = goroutines w ∧ ranges w1 = ranges w).
    { unfold w1. by destruct (decide (Process.State qv = Running)). }
    destruct (IH w1) as (w' & Hrun & Hprocs & Hc & Hk & Ho & Hg & Hr).
    { eapply Forall_impl; [exact Hok|]. intros p [pv Hp]. simpl. rewrite Hw1.
      destruct (decide (p = q ∧ Process.State qv = Running)); eauto. }
    assert (Hbody : StopProcesses_body q w = Some w1).
    { unfold StopProcesses_body, w1. rewrite Hq. simpl.
      by destruct (decide (Process.State qv = Running)). }
    change (for_range (q :: ps) StopProcesses_body w)
      with (StopProcesses_body q w ≫= for_range ps StopProcesses_body).
    rewrite Hbody. simpl. exists w'. split; [exact Hrun|]. split.
    + intros p. rewrite Hprocs, Hw1. unfold stopped_in.
      destruct (decide (p = q ∧ Process.State qv = Running)) as [[-> Hr']|Hn].
      * rewrite Hq. simpl. rewrite (decide_False (P := _ ∧ Process.State (Process.with_State Stopped qv) = Running)).
        2:{ simpl. by intros [_ ?]. }
        rewrite decide_True; [done|]. split; [left|done].
      * destruct (procs w !! p) as [pv|] eqn:Hp; simpl; [|done].
        f_equal. apply decide_ext. rewrite elem_of_cons.
        split; [tauto|]. intros [[->|Hin] Hr']; [|tauto].
        exfalso. apply Hn. split; [done|]. congruence.
    + rewrite Hc, Hk, Ho, Hg, Hr. exact Hrest.
Qed.

Lemma stopped_in_idemp ps p pv :
  stopped_in ps p (stopped_in ps p pv) = stopped_in ps p pv.
Proof.
  unfold stopped_in. destruct (decide (p ∈ ps ∧ Process.State pv = Running)) as [H|H].
  - rewrite decide_False; [done|]. simpl. by intros [_ ?].
  - by rewrite decide_False.
Qed.

(** C3: when the container and its processes are live objects,
    [StopProcesses] returns; afterwards every process of the container
    that was [Running] is [Stopped] with its other fields kept, every
    other process object (those [Completed] or [Stopped] among them) is as
    it was, and nothing else in the state has changed. *)
Theorem StopProcesses_spec (c : loc) (cv : Container.t) (w : world) :
  conts w !! c = Some cv →
  procs_ok w (Container.Processes cv) →
  ∃ w', StopProcesses c w = Some w' ∧
    (∀ p pv, procs w !! p = Some pv →
       procs w' !! p =
         Some (if decide (p ∈ Container.Processes cv ∧ Process.State pv = Running)
               then Process.with_State Stopped pv else pv)) ∧
    (∀ p pv, p ∈ Container.Processes cv → procs w !! p = Some pv →
       Process.State pv = Running → state_of w' p = Some Stopped) ∧
    (∀ p pv, procs w !! p = Some pv → Process.State pv ≠ Running →
       procs w' !! p = Some pv) ∧
    (∀ p, procs w !! p = None → procs w' !! p = None) ∧
    conts w' = conts w ∧ kernel w' = kernel w ∧ stdout w' = stdout w ∧
    goroutines w' = goroutines w.
Proof.
  intros Hc Hok. unfold StopProcesses. rewrite Hc. simpl.
  destruct (StopProcesses_range _ _ Hok) as (w' & Hrun & Hp & Hcs & Hk & Ho & Hg & _).
  exists w'. split; [exact Hrun|].
  assert (Hlk : ∀ p pv, procs w !! p = Some pv →
            procs w' !! p = Some (stopped_in (Container.Processes cv) p pv)).
  { intros p pv E. by rewrite Hp, E. }
  split; [exact Hlk|]. split; [|split; [|split; [|done]]].
  - intros p pv Hin E Hr. unfold state_of. rewrite (Hlk _ _ E). unfold stopped_in.
    by rewrite decide_True.
  - intros p pv E Hr. rewrite (Hlk _ _ E). unfold stopped_in.
    rewrite decide_False; [done|]. by intros [_ ?].
  - intros p E. by rewrite Hp, E.
Qed.

Lemma StopProcesses_spec_witness :
  ∃ w', StopProcesses 1%positive demo = Some w' ∧
    state_of w' 1%positive = Some Stopped ∧ state_of w' 2%positive = Some Stopped ∧
    state_of w' 3%positive = Some Running.
Proof.
  destruct (StopProcesses_spec 1%positive _ demo demo_c1)
    as (w' & Hrun & Hall & _).
  { apply (bool_decide_unpack _). vm_compute. reflexivity. }
  exists w'. split; [exact Hrun|].
  unfold state_of.
  rewrite (Hall 1%positive (exampleProcess "HTTP Server" 5)) by (vm_compute; reflexivity).
  rewrite (Hall 2%positive (exampleProcess "Worker" 5)) by (vm_compute; reflexivity).
  rewrite (Hall 3%positive (exampleProcess "DB Engine" 5)) by (vm_compute; reflexivity).
  vm_compute. done.
Defined.

(** C9: [StopProcesses] is idempotent: a second call right after the
    first returns and leaves the state exactly as the first call left it. *)
Theorem StopProcesses_idempotent (c : loc) (cv : Container.t) (w : world) :
  conts w !! c = Some cv →
  procs_ok w (Container.Processes cv) →
  ∃ w1, StopProcesses c w = Some w1 ∧ StopProcesses c w1 = Some w1.
Proof.
  intros Hc Hok. unfold StopProcesses. rewrite Hc. simpl.
  destruct (StopProcesses_range _ _ Hok) as (w1 & Hrun & Hp & Hcs & Hk & Ho & Hg & Hr).
  exists w1. split; [exact Hrun|].
  unfold StopProcesses. rewrite Hcs, Hc. simpl.
  destruct (StopProcesses_range (Container.Processes cv) w1) as (w2 & Hrun2 & Hp2 & Hcs2 & Hk2 & Ho2 & Hg2 & Hr2).
  { eapply Forall_impl; [exact Hok|]. intros p [pv E]. simpl. rewrite Hp, E. simpl. eauto. }
  rewrite Hrun2. f_equal. apply world_eq; try congruence.
  apply map_eq. intros p. rewrite Hp2, Hp.
  destruct (procs w !! p) as [pv|]; simpl; [|done].
  by rewrite stopped_in_idemp.
Qed.

Lemma StopProcesses_idempotent_witness :
  ∃ w1, StopProcesses 1%positive demo = Some w1 ∧ StopProcesses 1%positive w1 = Some w1.
Proof.
  apply (StopProcesses_idempotent 1%positive _ demo demo_c1).
  apply (bool_decide_unpack _). vm_compute. reflexivity.
Defined.

(** ** AddProcess *)

(** C4, as stated, fails when the process passed to [AddProcess] is
    already held by the container: process 1 of [demo_stopped] is held by
    container 1 and [Stopped]; after [AddProcess] on it, that previously
    held process is [Running], so it is not unchanged. *)
Lemma AddProcess_changes_held_process :
  ∃ cv w',
    conts demo_stopped !! 1%positive = Some cv ∧
    1%positive ∈ Container.Processes cv ∧
    state_of demo_stopped 1%positive = Some Stopped ∧
    AddProcess 1%positive 1%positive demo_stopped = Some w' ∧
    state_of w' 1%positive = Some Running ∧
    procs w' !! 1%positive ≠ procs demo_stopped !! 1%positive.
Proof.
  eexists _, _. split; [vm_compute; reflexivity|].
  split; [left|]. split; [vm_compute; reflexivity|].
  split; [vm_compute; reflexivity|]. split; [vm_compute; reflexivity|].
  vm_compute. discriminate.
Qed.

(** C4, amended: when the container and the process are live objects,
    [AddProcess] returns; afterwards the process is [Running] with its
    other fields kept, the container's slice is the old one followed by
    the process, the container's other fields are kept, and every process
    object other than the one passed and every other container is as it
    was. *)
Theorem AddProcess_spec (c p : loc) (cv : Container.t) (pv : Process.t) (w : world) :
  conts w !! c = Some cv →
  procs w !! p = Some pv →
  ∃ w', AddProcess c p w = Some w' ∧
    procs w' !! p = Some (Process.with_State Running pv) ∧
    state_of w' p = Some Running ∧
    conts w' !! c
      = Some (Container.with_Processes (Container.Processes cv ++ [p]) cv) ∧
    (∀ q, q ≠ p → procs w' !! q = procs w !! q) ∧
    (∀ c', c' ≠ c → conts w' !! c' = conts w !! c') ∧
    kernel w' = kernel w ∧ stdout w' = stdout w ∧ goroutines w' = goroutines w.
Proof.
  intros Hc Hp. unfold AddProcess. rewrite Hc. simpl. rewrite Hp. simpl.
  eexists. split; [reflexivity|]. simpl. unfold state_of. simpl.
  rewrite !lookup_insert_eq. repeat split.
  - intros q Hq. by rewrite lookup_insert_ne.
  - intros c' Hc'. by rewrite lookup_insert_ne.
Qed.

Lemma AddProcess_spec_witness :
  ∃ w', AddProcess 1%positive 3%positive demo = Some w' ∧
    conts w' !! 1%positive
      = Some (Container.mk "c1" "WebServer" 512 0%float
                [1%positive; 2%positive; 3%positive]).
Proof.
  destruct (AddProcess_spec 1%positive 3%positive _ (exampleProcess "DB Engine" 5)
              demo demo_c1)
    as (w' & Hrun & _ & _ & Hc & _).
  { vm_compute. reflexivity. }
  exists w'. split; [exact Hrun|exact Hc].
Defined.

(** ** CreateContainer *)

Lemma CreateContainer_fresh id name memory w :
  conts w !! (CreateContainer id name memory w).1 = None.
Proof.
  simpl. apply not_elem_of_dom. apply is_fresh.
Qed.

(** The facts shared by both cases of [CreateContainer]. *)
Lemma CreateContainer_effect id name memory w :
  let c := (CreateContainer id name memory w).1 in
  let w' := (CreateContainer id name memory w).2 in
  conts w !! c = None ∧
  Containers (kernel w') !! id = Some c ∧
  conts w' !! c = Some (Container.mk id name memory 0%float []) ∧
  stdout w' = stdout w ++ [Created name] ∧
  (∀ id', id' ≠ id → Containers (kernel w') !! id' = Containers (kernel w) !! id') ∧
  (∀ c' cv', conts w !! c' = Some cv' → conts w' !! c' = Some cv') ∧
  procs w' = procs w ∧ goroutines w' = goroutines w.
Proof.
  intros c w'. pose proof (CreateContainer_fresh id name memory w) as Hfresh.
  fold c in Hfresh. split; [exact Hfresh|]. subst w'. simpl.
  rewrite !lookup_insert_eq. repeat split.
  - intros id' Hne. by rewrite lookup_insert_ne.
  - intros c' cv' Hc'. rewrite lookup_insert_ne; [done|].
    change (c ≠ c'). intros ->. congruence.
Qed.

(** C6: when [id] is already registered, [CreateContainer] (which cannot
    fail) makes a new container object, puts it in the registry under [id]
    in place of the old one, and prints the creation line and nothing
    else; the registry entries of all other ids and all container objects
    that existed are as they were. *)
Theorem CreateContainer_overwrites (id name : string) (memory : Z) (old : loc)
    (oldv : Container.t) (w : world) :
  Containers (kernel w) !! id = Some old →
  conts w !! old = Some oldv →
  let c := (CreateContainer id name memory w).1 in
  let w' := (CreateContainer id name memory w).2 in
  c ≠ old ∧
  Containers (kernel w') !! id = Some c ∧
  conts w' !! c = Some (Container.mk id name memory 0%float []) ∧
  stdout w' = stdout w ++ [Created name] ∧
  (∀ id', id' ≠ id → Containers (kernel w') !! id' = Containers (kernel w) !! id') ∧
  (∀ c' cv', conts w !! c' = Some cv' → conts w' !! c' = Some cv') ∧
  procs w' = procs w.
Proof.
  intros Hid Hold c w'.
  destruct (CreateContainer_effect id name memory w)
    as (Hfresh & Hreg & Hnew & Hout & Hids & Hconts & Hprocs & _).
  fold c in Hfresh, Hreg, Hnew. fold w' in Hreg, Hnew, Hout, Hids, Hconts, Hprocs.
  split; [|done]. intros ->. congruence.
Qed.

Lemma CreateContainer_overwrites_witness :
  let c := (CreateContainer "c1" "Cache" 64 demo).1 in
  let w' := (CreateContainer "c1" "Cache" 64 demo).2 in
  c ≠ 1%positive ∧
  Containers (kernel w') !! "c1" = Some c ∧
  stdout w' = stdout demo ++ [Created "Cache"].
Proof.
  intros c w'.
  destruct (CreateContainer_overwrites "c1" "Cache" 64 1%positive
              (Container.mk "c1" "WebServer" 512 0%float [1%positive; 2%positive])
              demo)
    as (Hne & Hreg & _ & Hout & _).
  - vm_compute. reflexivity.
  - exact demo_c1.
  - done.
Defined.

(** C7: when [id] is not registered yet, [CreateContainer] registers under
    [id] and returns a new container with the given id, name and memory,
    CPU load 0 and no process; it prints exactly the creation line; every
    container registered before is still registered under its id and its
    object is as it was. *)
Theorem CreateContainer_registers (id name : string) (memory : Z) (w : world) :
  Containers (kernel w) !! id = None →
  let c := (CreateContainer id name memory w).1 in
  let w' := (CreateContainer id name memory w).2 in
  Containers (kernel w') !! id = Some c ∧
  conts w' !! c = Some (Container.mk id name memory 0%float []) ∧
  stdout w' = stdout w ++ [Created name] ∧
  (∀ id' c', Containers (kernel w) !! id' = Some c' →
     Containers (kernel w') !! id' = Some c') ∧
  (∀ c' cv', conts w !! c' = Some cv' → conts w' !! c' = Some cv') ∧
  procs w' = procs w.
Proof.
  intros Hid c w'.
  destruct (CreateContainer_effect id name memory w)
    as (Hfresh & Hreg & Hnew & Hout & Hids & Hconts & Hprocs & _).
  fold c in Hfresh, Hreg, Hnew. fold w' in Hreg, Hnew, Hout, Hids, Hconts, Hprocs.
  repeat split; try done.
  intros id' c' Hc'. rewrite Hids; [done|]. intros ->. congruence.
Qed.

Lemma CreateContainer_registers_witness :
  let c := (CreateContainer "c3" "Cache" 64 demo).1 in
  let w' := (CreateContainer "c3" "Cache" 64 demo).2 in
  Containers (kernel w') !! "c3" = Some c ∧
  Containers (kernel w') !! "c1" = Some 1%positive ∧
  Containers (kernel w') !! "c2" = Some 2%positive.
Proof.
  intros c w'.
  destruct (CreateContainer_registers "c3" "Cache" 64 demo)
    as (Hreg & _ & _ & Hold & _).
  - vm_compute. reflexivity.
  - split; [exact Hreg|]. split; apply Hold; vm_compute; reflexivity.
Defined.

(** ** SendMessage *)

Lemma registry_ok_lookup w id c :
  registry_ok w → Containers (kernel w) !! id = Some c →
  ∃ cv, conts w !! c = Some cv ∧ procs_ok w (Container.Processes cv).
Proof.
  intros Hok Hc. specialize (Hok id c Hc). simpl in Hok.
  destruct (conts w !! c) as [cv|]; [eauto|done].
Qed.

(** C2: [SendMessage] returns after printing exactly one line and
    changing nothing else.  The line is the success line, with the names
    of the two containers and the text, when both ids are registered; it
    is the failure line when either id is not. *)
Theorem SendMessage_spec (fromID toID msg : string) (w : world) :
  registry_ok w →
  ∃ w' o, SendMessage fromID toID msg w = Some w' ∧
    stdout w' = stdout w ++ [o] ∧
    same_state w w' ∧ goroutines w' = goroutines w ∧
    (∀ from to, Containers (kernel w) !! fromID = Some from →
       Containers (kernel w) !! toID = Some to →
       ∃ fv tv, conts w !! from = Some fv ∧ conts w !! to = Some tv ∧
         o = Message (Container.Name fv) (Container.Name tv) msg) ∧
    (Containers (kernel w) !! fromID = None ∨ Containers (kernel w) !! toID = None →
       o = MessagingError).
Proof.
  intros Hok. unfold SendMessage.
  destruct (Containers (kernel w) !! fromID) as [from|] eqn:Hf.
  - destruct (Containers (kernel w) !! toID) as [to|] eqn:Ht.
    + destruct (registry_ok_lookup _ _ _ Hok Hf) as (fv & Hfv & _).
      destruct (registry_ok_lookup _ _ _ Hok Ht) as (tv & Htv & _).
      rewrite Hfv, Htv. simpl. eexists _, _. split; [reflexivity|].
      split; [reflexivity|]. split; [done|]. split; [done|]. split.
      * intros ? ? [= <-] [= <-]. eauto.
      * intros [?|?]; discriminate.
    + eexists _, _. split; [reflexivity|]. split; [reflexivity|].
      split; [done|]. split; [done|]. split; [discriminate|done].
  - eexists _, _. split; [reflexivity|]. split; [reflexivity|].
    split; [done|]. split; [done|]. split; [discriminate|done].
Qed.

Lemma SendMessage_spec_witness :
  (∃ w', SendMessage "c1" "c2" "ping" demo = Some w' ∧
     stdout w' = stdout demo ++ [Message "WebServer" "Database" "ping"]) ∧
  (∃ w', SendMessage "x" "c2" "ping" demo = Some w' ∧
     stdout w' = stdout demo ++ [MessagingError]).
Proof.
  split.
  - destruct (SendMessage_spec "c1" "c2" "ping" demo demo_ok)
      as (w' & o & Hrun & Hout & _ & _ & Hyes & _).
    exists w'. split; [exact Hrun|]. rewrite Hout.
    destruct (Hyes 1%positive 2%positive) as (fv & tv & Hfv & Htv & ->);
      [vm_compute; reflexivity..|].
    vm_compute in Hfv, Htv. injection Hfv as <-. injection Htv as <-. reflexivity.
  - destruct (SendMessage_spec "x" "c2" "ping" demo demo_ok)
      as (w' & o & Hrun & Hout & _ & _ & _ & Hno).
    exists w'. split; [exact Hrun|]. rewrite Hout, Hno; [reflexivity|].
    left. vm_compute. reflexivity.
Defined.

(** ** Monitor *)

Lemma count_active_spec w ps active :
  procs_ok w ps →
  count_active ps w active = Some (active + running_count w ps).
Proof.
  unfold running_count. revert active.
  induction ps as [|p ps IH]; intros active Hok.
  - simpl. f_equal. lia.
  - apply Forall_cons in Hok as [[pv Hp] Hok].
    change (count_active (p :: ps) w active)
      with (pv ← procs w !! p;
            count_active ps w
              (if decide (Process.State pv = Running) then active + 1 else active)).
    rewrite Hp. simpl. rewrite (IH _ Hok). f_equal.
    assert (Hst : state_of w p = Some (Process.State pv))
      by (unfold state_of; by rewrite Hp).
    destruct (decide (Process.State pv = Running)) as [Hr|Hr].
    + rewrite filter_cons_True by congruence. simpl length. lia.
    + rewrite filter_cons_False by congruence. lia.
Qed.

Lemma running_count_ext w v ps :
  procs v = procs w → running_count v ps = running_count w ps.
Proof. intros E. unfold running_count, state_of. by rewrite E. Qed.

(** The rows of a [range] over the registry entries [l], all taken in the
    state [w]. *)
Lemma Monitor_rows w (l : list (string * loc)) v :
  Forall (λ kc, ∃ cv, conts w !! kc.2 = Some cv
                      ∧ procs_ok w (Container.Processes cv)) l →
  procs v = procs w → conts v = conts w →
  ∃ v', for_range l (λ kc, Monitor_row kc.2) v = Some v' ∧
    procs v' = procs v ∧ conts v' = conts v ∧ kernel v' = kernel v ∧
    goroutines v' = goroutines v ∧ ranges v' = ranges v ∧
    stdout v' = stdout v ++ (row_of w <$> omap (λ kc, conts w !! kc.2) l).
Proof.
  revert v. induction l as [|[id c] l IH]; intros v Hok Hp Hc.
  - exists v. simpl. by rewrite app_nil_r.
  - apply Forall_cons in Hok as [(cv & Hcv & Hps) Hok]. simpl in Hcv.
    assert (Hrow : Monitor_row c v = Some (emit (row_of w cv) v)).
    { unfold Monitor_row. rewrite Hc, Hcv. simpl.
      rewrite count_active_spec by (unfold procs_ok; by rewrite Hp).
      simpl. unfold row_of. by rewrite Z.add_0_l, (running_count_ext w v). }
    change (for_range ((id, c) :: l) (λ kc, Monitor_row kc.2) v)
      with (Monitor_row c v ≫= for_range l (λ kc, Monitor_row kc.2)).
    rewrite Hrow. simpl.
    destruct (IH (emit (row_of w cv) v) Hok Hp Hc)
      as (v' & Hrun & Hp' & Hc' & Hk' & Hg' & Hr' & Ho').
    exists v'. split; [exact Hrun|]. rewrite Hp', Hc', Hk', Hg', Hr', Ho'. simpl.
    rewrite Hcv. simpl. by rewrite <-app_assoc.
Qed.

(** Among live objects the registry has one container per id, so a
    snapshot block has one row per id. *)
Lemma registered_length w :
  registry_ok w → length (registered w) = size (Containers (kernel w)).
Proof.
  intros Hok. unfold registered.
  rewrite <-(length_map_to_list (Containers (kernel w))).
  apply map_Forall_to_list in Hok. revert Hok.
  generalize (map_to_list (Containers (kernel w))). intros l Hm.
  induction Hm as [|[id c] l Hc _ IH]; [done|]. simpl in Hc |- *.
  destruct (conts w !! c); [|done]. simpl. f_equal. exact IH.
Qed.

Lemma snapshot_block_length w block :
  registry_ok w → snapshot_block w block →
  length block = S (size (Containers (kernel w))).
Proof.
  intros Hok (rows & -> & Hrows). simpl.
  by rewrite Hrows, length_fmap, registered_length.
Qed.

Section Monitor.

Variable range_order : nat → list (string * loc) → list (string * loc).
Variable Sleep : Z → world → world.

Hypothesis range_order_perm : ∀ n l, range_order n l ≡ₚ l.

Lemma Monitor_snapshot_spec w :
  registry_ok w →
  ∃ block, snapshot_block w block ∧
    Monitor_snapshot range_order w = Some (observe block w).
Proof.
  intros Hok.
  set (l := range_order (ranges w) (map_to_list (Containers (kernel w)))).
  destruct (Monitor_rows w l (next_range (emit MonitorHeader w)))
    as (v' & Hrun & Hp & Hc & Hk & Hg & Hr & Ho); [|done|done|].
  { apply Forall_forall. intros [id c] Hin. simpl.
    unfold l in Hin. rewrite range_order_perm in Hin.
    apply elem_of_map_to_list in Hin. by apply (registry_ok_lookup w id c). }
  exists (MonitorHeader :: (row_of w <$> omap (λ kc, conts w !! kc.2) l)). split.
  - eexists. split; [reflexivity|]. unfold registered, l.
    by rewrite range_order_perm.
  - unfold Monitor_snapshot, range_Containers.
    change (for_range _ _ _) with (for_range l (λ kc, Monitor_row kc.2)
                                     (next_range (emit MonitorHeader w))).
    rewrite Hrun. f_equal. apply world_eq; simpl; try done.
    rewrite Ho. simpl. by rewrite <-app_assoc.
Qed.

Lemma snapshot_block_ext w v block :
  same_state w v → snapshot_block w block → snapshot_block v block.
Proof.
  intros (Hp & Hc & Hk) (rows & -> & Hrows). exists rows. split; [done|].
  rewrite Hrows. unfold registered. rewrite Hc, Hk.
  set (L := omap _ _).
  assert (row_of v <$> L = row_of w <$> L) as ->; [|done].
  apply list_fmap_ext. intros _ cv _. unfold row_of.
  by rewrite (running_count_ext w v).
Qed.

(** When nothing happens during the sleeps, the run prints its blocks one
    after the other, all of them blocks of the initial state. *)
Lemma Monitor_run_quiet interval n w w' :
  (∀ d v, Sleep d v = v) →
  Monitor_run Sleep interval n w w' →
  same_state w w' ∧ goroutines w' = goroutines w ∧
  ∃ blocks, length blocks = n ∧ Forall (snapshot_block w) blocks ∧
    stdout w' = stdout w ++ concat blocks.
Proof.
  intros Hquiet Hrun. induction Hrun as [w|n w block w' Hblock Hrun IH].
  - split; [done|]. split; [done|]. exists []. by rewrite app_nil_r.
  - rewrite Hquiet in IH, Hrun.
    destruct IH as ((Hp & Hc & Hk) & Hg & blocks & Hlen & Hall & Hout).
    split; [done|]. split; [done|].
    exists (block :: blocks). split; [simpl; by rewrite Hlen|]. split.
    + constructor; [done|]. eapply Forall_impl; [exact Hall|].
      intros b. by apply snapshot_block_ext.
    + rewrite Hout. simpl. by rewrite <-app_assoc.
Qed.

Hypothesis Sleep_ok : ∀ d v, registry_ok v → registry_ok (Sleep d v).

Lemma observe_ok block w : registry_ok w → registry_ok (observe block w).
Proof. done. Qed.

Lemma Monitor_loop_run interval n w :
  registry_ok w →
  ∃ w', Monitor_loop range_order Sleep interval n w = Some w' ∧
    Monitor_run Sleep interval n w w'.
Proof.
  revert w. induction n as [|n IH]; intros w Hok.
  - exists w. split; [done|constructor].
  - destruct (Monitor_snapshot_spec w Hok) as (block & Hblock & Hsnap).
    destruct (IH (Sleep interval (observe block w))) as (w' & Hloop & Hrun).
    { apply Sleep_ok. by apply observe_ok. }
    exists w'. split.
    + simpl. rewrite Hsnap. exact Hloop.
    + econstructor; eauto.
Qed.

(** C5: with [cycles] at least 1, in a state whose pointers are live and
    that the other goroutines keep so during the sleeps, [Monitor] returns
    after exactly [cycles] iterations.  Each prints one block (the header,
    then one row per registered container with the number of its
    processes that are [Running] at that moment) and changes nothing else
    in the state.  When nothing happens during the sleeps, the kernel and
    container state at the end is the initial one, and standard output has
    grown by exactly [cycles] blocks. *)
Theorem Monitor_spec (interval cycles : Z) (w : world) :
  registry_ok w →
  1 ≤ cycles →
  ∃ w', Monitor range_order Sleep interval cycles w = Some w' ∧
    Monitor_run Sleep interval (Z.to_nat cycles) w w' ∧
    ((∀ d v, Sleep d v = v) →
     same_state w w' ∧
     ∃ blocks, Z.of_nat (length blocks) = cycles ∧
       Forall (snapshot_block w) blocks ∧
       stdout w' = stdout w ++ concat blocks).
Proof.
  intros Hok Hcycles. unfold Monitor.
  destruct (Monitor_loop_run interval (Z.to_nat cycles) w Hok) as (w' & Hloop & Hrun).
  exists w'. split; [exact Hloop|]. split; [exact Hrun|].
  intros Hquiet.
  destruct (Monitor_run_quiet _ _ _ _ Hquiet Hrun)
    as (Hsame & _ & blocks & Hlen & Hall & Hout).
  split; [exact Hsame|]. exists blocks. split; [lia|done].
Qed.


(** C10: with [cycles] zero or negative, [Monitor] returns at once and
    leaves the whole state, standard output included, as it was. *)
Theorem Monitor_no_cycles (interval cycles : Z) (w : world) :
  cycles ≤ 0 →
  Monitor range_order Sleep interval cycles w = Some w.
Proof.
  intros Hle. unfold Monitor.
  replace (Z.to_nat cycles) with O by lia. reflexivity.
Qed.

End Monitor.

Lemma Monitor_no_cycles_witness :
  Monitor in_order no_sleep 1000 (-3) demo = Some demo.
Proof. apply Monitor_no_cycles. lia. Defined.

Lemma Monitor_spec_witness :
  ∃ w', Monitor in_order no_sleep 1000 3 demo = Some w' ∧
    same_state demo w' ∧
    ∃ blocks, Z.of_nat (length blocks) = 3 ∧
      Forall (snapshot_block demo) blocks ∧
      stdout w' = stdout demo ++ concat blocks.
Proof.
  destruct (Monitor_spec in_order no_sleep) with (interval := 1000) (cycles := 3)
    (w := demo) as (w' & Hrun & _ & Hquiet).
  - intros n l. reflexivity.
  - intros d v Hv. exact Hv.
  - exact demo_ok.
  - lia.
  - exists w'. split; [exact Hrun|]. apply Hquiet. intros d v. reflexivity.
Defined.

(** ** Runs: how the state of a process changes *)

Lemma with_State_same pv : Process.with_State (Process.State pv) pv = pv.
Proof. by destruct pv. Qed.

#[global] Instance keeps_refl : Reflexive keeps.
Proof. by intros w. Qed.

#[global] Instance keeps_trans : Transitive keeps.
Proof.
  intros w1 w2 w3 [Hp Hg] [Hp' Hg']. split; [congruence|]. auto.
Qed.

#[global] Instance stops_refl : Reflexive stops.
Proof.
  intros w. split; [|done]. intros p pv Hp. exists (Process.State pv).
  rewrite with_State_same. auto.
Qed.

#[global] Instance stops_trans : Transitive stops.
Proof.
  intros w1 w2 w3 [Hp Hg] [Hp' Hg']. split; [|congruence].
  intros p pv E. destruct (Hp p pv E) as (s & E2 & Hs).
  destruct (Hp' p _ E2) as (s' & E3 & Hs'). simpl in *.
  exists s'. split; [exact E3|].
  destruct Hs as [->|[Hr ->]]; destruct Hs' as [->|[Hr' ->]]; auto; congruence.
Qed.

Lemma StartProcesses_keeps c w w' : StartProcesses c w = Some w' → keeps w w'.
Proof.
  unfold StartProcesses. destruct (conts w !! c) as [cv|]; simpl; [|done].
  apply (for_range_inv keeps). intros p v v1 _ Hbody.
  unfold StartProcesses_body in Hbody.
  destruct (procs v !! p) as [pv|]; simpl in Hbody; [|done].
  destruct (decide (Process.State pv = Running)); injection Hbody as <-; [|done].
  split; [done|]. intros q Hq. simpl. apply elem_of_app. by left.
Qed.

Lemma StopProcesses_stops c w w' : StopProcesses c w = Some w' → stops w w'.
Proof.
  unfold StopProcesses. destruct (conts w !! c) as [cv|]; simpl; [|done].
  apply (for_range_inv stops). intros p v v1 _ Hbody.
  unfold StopProcesses_body in Hbody.
  destruct (procs v !! p) as [pv|] eqn:Hp; simpl in Hbody; [|done].
  destruct (decide (Process.State pv = Running)) as [Hr|Hr];
    injection Hbody as <-; [|done].
  split; [|done]. intros q qv Hq. simpl.
  destruct (decide (q = p)) as [->|Hne].
  - rewrite lookup_insert_eq. exists Stopped.
    assert (qv = pv) as -> by congruence. auto.
  - rewrite lookup_insert_ne by done. exists (Process.State qv).
    rewrite with_State_same. auto.
Qed.

Lemma emit_lines_frame lines w :
  let w1 := foldl (λ w l, emit (Printed l) w) w lines in
  procs w1 = procs w ∧ conts w1 = conts w ∧ kernel w1 = kernel w ∧
  goroutines w1 = goroutines w ∧ ranges w1 = ranges w.
Proof.
  revert w. induction lines as [|l lines IH]; intros w; simpl; [done|].
  destruct (IH (emit (Printed l) w)) as (-> & -> & -> & -> & ->). done.
Qed.

Lemma goroutine_return_spec i p pv lines w :
  goroutines w !! i = Some p → procs w !! p = Some pv →
  Process.Action pv = Returns lines →
  ∃ w', goroutine_return i w = Some w' ∧
    procs w' = <[p := Process.with_State Completed pv]> (procs w) ∧
    goroutines w' = delete i (goroutines w) ∧
    conts w' = conts w ∧ kernel w' = kernel w.
Proof.
  intros Hi Hp Ha. unfold goroutine_return. rewrite Hi. simpl. rewrite Hp. simpl.
  rewrite Ha. eexists. split; [reflexivity|]. simpl.
  destruct (emit_lines_frame lines w) as (-> & -> & -> & -> & _). done.
Qed.

Lemma goroutine_return_inv i w w' :
  goroutine_return i w = Some w' →
  ∃ p pv lines, goroutines w !! i = Some p ∧ procs w !! p = Some pv ∧
    Process.Action pv = Returns lines.
Proof.
  unfold goroutine_return. intros H.
  destruct (goroutines w !! i) as [p|]; simpl in H; [|done].
  destruct (procs w !! p) as [pv|] eqn:Hp; simpl in H; [|done].
  destruct (Process.Action pv) as [lines|] eqn:Ha; [|done].
  by exists p, pv, lines.
Qed.

Section Runs.

Variable range_order : nat → list (string * loc) → list (string * loc).

Lemma range_Containers_inv (R : world → world → Prop)
    `{!Reflexive R, !Transitive R} body w w' :
  R w (next_range w) →
  (∀ c v v1, body c v = Some v1 → R v v1) →
  range_Containers range_order body w = Some w' → R w w'.
Proof.
  intros Hnext Hbody Hrun. transitivity (next_range w); [exact Hnext|].
  revert Hrun. apply (for_range_inv R). intros kc v v1 _. apply Hbody.
Qed.

Lemma StartAll_keeps w w' : StartAll range_order w = Some w' → keeps w w'.
Proof.
  apply (range_Containers_inv keeps); [done|]. intros c v v1 Hbody.
  destruct (conts v !! c) as [cv|]; simpl in Hbody; [|done].
  apply StartProcesses_keeps in Hbody. destruct Hbody as [Hp Hg]. by split.
Qed.

Lemma StopAll_stops w w' : StopAll range_order w = Some w' → stops w w'.
Proof.
  apply (range_Containers_inv stops); [exact (stops_refl w)|]. intros c v v1 Hbody.
  destruct (conts v !! c) as [cv|]; simpl in Hbody; [|done].
  apply StopProcesses_stops in Hbody. destruct Hbody as [Hp Hg]. by split.
Qed.

Lemma Monitor_snapshot_keeps w w' :
  Monitor_snapshot range_order w = Some w' → keeps w w'.
Proof.
  intros H. transitivity (emit MonitorHeader w); [done|]. revert H.
  apply (range_Containers_inv keeps); [done|]. intros c v v1 Hbody.
  unfold Monitor_row in Hbody.
  destruct (conts v !! c) as [cv|]; simpl in Hbody; [|done].
  destruct (count_active _ _ _); simpl in Hbody; [|done].
  by injection Hbody as <-.
Qed.

Lemma SendMessage_keeps a b m w w' : SendMessage a b m w = Some w' → keeps w w'.
Proof.
  unfold SendMessage. intros H.
  destruct (Containers (kernel w) !! a) as [from|];
    [destruct (Containers (kernel w) !! b) as [to|]|];
    [|by injection H as <-..].
  destruct (conts w !! from); simpl in H; [|done].
  destruct (conts w !! to); simpl in H; [|done].
  by injection H as <-.
Qed.

Lemma exec_process e w w' p pv :
  exec range_order e w = Some w' → procs w !! p = Some pv →
  ∃ s', procs w' !! p = Some (Process.with_State s' pv) ∧
    transition e w p (Process.State pv) s'.
Proof.
  intros Hexec Hp.
  assert (Hkeeps : keeps w w' →
            ∃ s', procs w' !! p = Some (Process.with_State s' pv) ∧
                  s' = Process.State pv).
  { intros [E _]. exists (Process.State pv). by rewrite E, with_State_same. }
  assert (Hstops : stops w w' →
            ∃ s', procs w' !! p = Some (Process.with_State s' pv) ∧
              (s' = Process.State pv ∨ Process.State pv = Running ∧ s' = Stopped)).
  { intros [E _]. by apply E. }
  unfold transition. destruct e as [qv|c q|c|c|id name memory| | |a b m| |i];
    simpl in Hexec.
  - injection Hexec as <-. exists (Process.State pv). simpl.
    rewrite with_State_same. split; [|by left].
    rewrite lookup_insert_ne; [done|]. intros <-.
    pose proof (is_fresh (dom (procs w))) as Hf.
    apply not_elem_of_dom in Hf. congruence.
  - unfold AddProcess in Hexec.
    destruct (conts w !! c) as [cv|]; simpl in Hexec; [|done].
    destruct (procs w !! q) as [qv|] eqn:Hq; simpl in Hexec; [|done].
    injection Hexec as <-. simpl. destruct (decide (q = p)) as [->|Hne].
    + rewrite lookup_insert_eq. exists Running.
      assert (qv = pv) as -> by congruence. auto.
    + rewrite lookup_insert_ne by done. exists (Process.State pv).
      rewrite with_State_same. auto.
  - destruct (Hkeeps (StartProcesses_keeps _ _ _ Hexec)) as (s' & ? & ?); eauto.
  - destruct (Hstops (StopProcesses_stops _ _ _ Hexec)) as (s' & ? & [?|?]); eauto.
  - injection Hexec as <-. exists (Process.State pv). simpl.
    rewrite with_State_same. auto.
  - destruct (Hkeeps (StartAll_keeps _ _ Hexec)) as (s' & ? & ?); eauto.
  - destruct (Hstops (StopAll_stops _ _ Hexec)) as (s' & ? & [?|?]); eauto.
  - destruct (Hkeeps (SendMessage_keeps _ _ _ _ _ Hexec)) as (s' & ? & ?); eauto.
  - destruct (Hkeeps (Monitor_snapshot_keeps _ _ Hexec)) as (s' & ? & ?); eauto.
  - destruct (goroutine_return_inv _ _ _ Hexec) as (q & qv & lines & Hi & Hq & Ha).
    destruct (goroutine_return_spec _ _ _ _ _ Hi Hq Ha) as (w2 & E & Hprocs & _).
    assert (w2 = w') as -> by congruence. rewrite Hprocs.
    destruct (decide (q = p)) as [->|Hne].
    + rewrite lookup_insert_eq. exists Completed.
      assert (qv = pv) as -> by congruence. auto.
    + rewrite lookup_insert_ne by done. exists (Process.State pv).
      rewrite with_State_same. auto.
Qed.

Lemma list_elem_of_delete_ne {A} (l : list A) (i : nat) (x y : A) :
  x ∈ l → l !! i = Some y → y ≠ x → x ∈ delete i l.
Proof.
  intros Hx Hi Hne. apply list_elem_of_lookup in Hx as [j Hj].
  apply list_elem_of_lookup.
  destruct (decide (j < i)%nat) as [Hlt|Hge].
  - exists j. by rewrite list_lookup_delete_lt.
  - assert (j ≠ i) by (intros ->; congruence).
    exists (pred j). rewrite list_lookup_delete_ge by lia.
    replace (S (pred j)) with j by lia. done.
Qed.

Lemma exec_pending e w w' p :
  exec range_order e w = Some w' → p ∈ goroutines w →
  p ∈ goroutines w' ∨ state_of w' p = Some Completed.
Proof.
  intros Hexec Hp.
  destruct e as [qv|c q|c|c|id name memory| | |a b m| |i]; simpl in Hexec.
  - injection Hexec as <-. by left.
  - unfold AddProcess in Hexec.
    destruct (conts w !! c) as [cv|]; simpl in Hexec; [|done].
    destruct (procs w !! q) as [qv|]; simpl in Hexec; [|done].
    injection Hexec as <-. by left.
  - left. by apply (StartProcesses_keeps _ _ _ Hexec).
  - left. destruct (StopProcesses_stops _ _ _ Hexec) as [_ ->]. done.
  - injection Hexec as <-. by left.
  - left. by apply (StartAll_keeps _ _ Hexec).
  - left. destruct (StopAll_stops _ _ Hexec) as [_ ->]. done.
  - left. by apply (SendMessage_keeps _ _ _ _ _ Hexec).
  - left. by apply (Monitor_snapshot_keeps _ _ Hexec).
  - destruct (goroutine_return_inv _ _ _ Hexec) as (q & qv & lines & Hi & Hq & Ha).
    destruct (goroutine_return_spec _ _ _ _ _ Hi Hq Ha) as (w2 & E & Hprocs & Hg & _).
    assert (w2 = w') as -> by congruence.
    destruct (decide (q = p)) as [->|Hne].
    + right. unfold state_of. by rewrite Hprocs, lookup_insert_eq.
    + left. rewrite Hg. by apply (list_elem_of_delete_ne _ _ _ q).
Qed.

Lemma run_process es w w' p pv :
  run range_order es w = Some w' → procs w !! p = Some pv →
  ∃ s', procs w' !! p = Some (Process.with_State s' pv).
Proof.
  revert w pv. induction es as [|e es IH]; intros w pv Hrun Hp; simpl in Hrun.
  - injection Hrun as <-. exists (Process.State pv). by rewrite with_State_same.
  - destruct (exec range_order e w) as [w1|] eqn:He; simpl in Hrun; [|done].
    destruct (exec_process _ _ _ _ _ He Hp) as (s1 & Hp1 & _).
    destruct (IH _ _ Hrun Hp1) as (s' & Hp'). by exists s'.
Qed.

Lemma run_pending es w w' p :
  run range_order es w = Some w' → p ∈ goroutines w → p ∉ goroutines w' →
  ∃ es1 es2 v, es = es1 ++ es2 ∧ run range_order es1 w = Some v ∧
    state_of v p = Some Completed.
Proof.
  revert w. induction es as [|e es IH]; intros w Hrun Hin Hout; simpl in Hrun.
  - injection Hrun as <-. done.
  - destruct (exec range_order e w) as [w1|] eqn:He; simpl in Hrun; [|done].
    destruct (exec_pending _ _ _ _ He Hin) as [Hin1|Hdone].
    + destruct (IH _ Hrun Hin1 Hout) as (es1 & es2 & v & -> & Hrun1 & Hv).
      exists (e :: es1), es2, v. split; [done|]. split; [|done].
      simpl. by rewrite He.
    + exists [e], es, w1. split; [done|]. split; [|done]. simpl. by rewrite He.
Qed.

(** C1, amended: the state of a process changes only in these ways:
    [StopProcesses] (also through [StopAll]) takes it from [Running] to
    [Stopped] and changes no process that is [Stopped] or [Completed];
    the return of the action of a goroutine started for it sets it to
    [Completed], whatever it was; [AddProcess] on it sets it to [Running],
    whatever it was.  Every other step, [StartProcesses] among them,
    changes the state of no process.  No step removes a process or
    changes its name, priority or action. *)
Theorem state_transitions (e : event) (w w' : world) (p : loc) (pv : Process.t) :
  exec range_order e w = Some w' →
  procs w !! p = Some pv →
  ∃ pv', procs w' !! p = Some pv' ∧
    Process.Name pv' = Process.Name pv ∧
    Process.Priority pv' = Process.Priority pv ∧
    Process.Action pv' = Process.Action pv ∧
    (Process.State pv' = Process.State pv
     ∨ (Process.State pv = Running ∧ Process.State pv' = Stopped ∧
        ((∃ c, e = CallStopProcesses c) ∨ e = CallStopAll))
     ∨ (Process.State pv' = Completed ∧
        ∃ i, e = ActionReturns i ∧ goroutines w !! i = Some p)
     ∨ (Process.State pv' = Running ∧ ∃ c, e = CallAddProcess c p)).
Proof.
  intros Hexec Hp.
  destruct (exec_process _ _ _ _ _ Hexec Hp) as (s' & Hp' & Ht).
  exists (Process.with_State s' pv). split; [exact Hp'|]. simpl.
  do 3 (split; [reflexivity|]).
  destruct Ht as [->|Ht]; [by left|]. right.
  destruct e; try done.
  - destruct Ht as [-> ->]. right. right. eauto.
  - destruct Ht as [-> ->]. left. eauto.
  - destruct Ht as [-> ->]. left. eauto.
  - destruct Ht as [Hi ->]. right. left. eauto.
Qed.

(** ** StartProcesses *)

Lemma StartProcesses_range ps w v :
  procs_ok w ps → procs v = procs w →
  for_range ps StartProcesses_body v
  = Some (upd_goroutines
            (λ g, g ++ filter (λ p, state_of w p = Some Running) ps) v).
Proof.
  revert v. induction ps as [|p ps IH]; intros v Hok Hv.
  - simpl. f_equal. apply world_eq; simpl; try done. by rewrite app_nil_r.
  - apply Forall_cons in Hok as [[pv Hp] Hok].
    assert (Hst : state_of w p = Some (Process.State pv))
      by (unfold state_of; by rewrite Hp).
    change (for_range (p :: ps) StartProcesses_body v)
      with (StartProcesses_body p v ≫= for_range ps StartProcesses_body).
    assert (Hbody : StartProcesses_body p v
              = Some (if decide (Process.State pv = Running) then go p v else v)).
    { unfold StartProcesses_body. rewrite Hv, Hp. simpl.
      by destruct (decide (Process.State pv = Running)). }
    rewrite Hbody.
    destruct (decide (Process.State pv = Running)) as [Hr|Hr]; simpl.
    + rewrite IH by done. f_equal. rewrite filter_cons_True by congruence.
      apply world_eq; simpl; try done. by rewrite <-app_assoc.
    + rewrite IH by done. by rewrite filter_cons_False by congruence.
Qed.

(** Along the runs made of whole operations: after [StartProcesses], the
    return of a pending goroutine started for a process whose action
    terminates is a possible step in every later state and leaves the
    process [Completed]; the goroutine leaves the pending ones only by
    this step. *)
Lemma StartProcesses_pending_runs (c : loc) (cv : Container.t) (w : world) :
  conts w !! c = Some cv →
  procs_ok w (Container.Processes cv) →
  ∃ w', StartProcesses c w = Some w' ∧
    same_state w w' ∧ stdout w' = stdout w ∧
    goroutines w'
      = goroutines w
        ++ filter (λ p, state_of w p = Some Running) (Container.Processes cv) ∧
    ∀ p pv lines,
      p ∈ Container.Processes cv → procs w !! p = Some pv →
      Process.State pv = Running → Process.Action pv = Returns lines →
      p ∈ goroutines w' ∧
      ∀ es v, run range_order es w' = Some v →
        (∀ i, goroutines v !! i = Some p →
           ∃ v', exec range_order (ActionReturns i) v = Some v' ∧
             state_of v' p = Some Completed) ∧
        (p ∉ goroutines v →
           ∃ es1 es2 v1, es = es1 ++ es2 ∧ run range_order es1 w' = Some v1 ∧
             state_of v1 p = Some Completed).
Proof.
  intros Hc Hok.
  set (w' := upd_goroutines
               (λ g, g ++ filter (λ p, state_of w p = Some Running)
                           (Container.Processes cv)) w).
  assert (Hstart : StartProcesses c w = Some w').
  { unfold StartProcesses. rewrite Hc. simpl.
    by apply (StartProcesses_range _ w w). }
  exists w'. split; [exact Hstart|]. split; [done|]. split; [done|].
  split; [done|]. intros p pv lines Hin Hp Hr Ha.
  assert (Hpending : p ∈ goroutines w').
  { simpl. apply elem_of_app. right. apply list_elem_of_filter.
    split; [|done]. unfold state_of. by rewrite Hp, <-Hr. }
  split; [exact Hpending|]. intros es v Hrun. split.
  - intros i Hi.
    destruct (run_process es w' v p pv Hrun Hp) as (s & Hpv).
    destruct (goroutine_return_spec i p _ lines v Hi Hpv Ha)
      as (v' & Hv' & Hprocs & _).
    exists v'. split; [exact Hv'|]. unfold state_of.
    by rewrite Hprocs, lookup_insert_eq.
  - intros Hout. by apply (run_pending es w' v p).
Qed.

End Runs.

(** C1, as stated, fails: a process stopped while its action is in flight
    leaves [Stopped] for [Completed] when the action returns, and
    [AddProcess] on a [Stopped] process makes it [Running]. *)
Lemma Stopped_is_not_terminal :
  state_of demo_interrupted 1%positive = Some Stopped ∧
  (∃ w', exec in_order (ActionReturns 0) demo_interrupted = Some w' ∧
         state_of w' 1%positive = Some Completed) ∧
  (∃ w', exec in_order (CallAddProcess 1%positive 1%positive) demo_interrupted
         = Some w' ∧
         state_of w' 1%positive = Some Running).
Proof.
  split; [vm_compute; reflexivity|].
  split; eexists; (split; [vm_compute; reflexivity|]); vm_compute; reflexivity.
Qed.

Lemma state_transitions_witness :
  ∃ w' pv',
    exec in_order (ActionReturns 0) demo_interrupted = Some w' ∧
    procs w' !! 1%positive = Some pv' ∧
    Process.Action pv' = Process.Action (exampleProcess "HTTP Server" 5).
Proof.
  set (w' := default demo (exec in_order (ActionReturns 0) demo_interrupted)).
  assert (He : exec in_order (ActionReturns 0) demo_interrupted = Some w')
    by (vm_compute; reflexivity).
  destruct (state_transitions in_order (ActionReturns 0) demo_interrupted w'
              1%positive
              (Process.with_State Stopped (exampleProcess "HTTP Server" 5)) He)
    as (pv' & Hp & _ & _ & Ha & _).
  { vm_compute. reflexivity. }
  exists w', pv'. split; [exact He|]. split; [exact Hp|exact Ha].
Defined.

(** * Beyond the operations taken one by one

    [StartAll], [StopAll], the simulator of [main], and what holds along
    every run. *)

(** ** Shapes of steps *)

#[global] Instance quiet_refl : Reflexive quiet.
Proof. by intros w. Qed.

#[global] Instance quiet_trans : Transitive quiet.
Proof.
  intros w1 w2 w3 (Hc & Hk & Hg & Hd & Ho) (Hc' & Hk' & Hg' & Hd' & Ho').
  split; [congruence|]. split; [congruence|]. split; [congruence|].
  split; [|by etransitivity]. intros p. by rewrite Hd', Hd.
Qed.

#[global] Instance starts_refl : Reflexive starts.
Proof. intros w. repeat split; auto. Qed.

#[global] Instance starts_trans : Transitive starts.
Proof.
  intros w1 w2 w3 (Hp & Hc & Hk & Hg & Hr & Ho) (Hp' & Hc' & Hk' & Hg' & Hr' & Ho').
  split; [congruence|]. split; [congruence|]. split; [congruence|].
  split; [by etransitivity|]. split; [|by etransitivity].
  intros p Hin. destruct (Hr' p Hin) as [Hin2|Hrun]; [by apply Hr|].
  right. unfold state_of in *. by rewrite <-Hp.
Qed.

Lemma emit_quiet o w : quiet w (emit o w).
Proof. repeat split; auto. by apply prefix_app_r. Qed.

Lemma emit_starts o w : starts w (emit o w).
Proof. repeat split; auto. by apply prefix_app_r. Qed.

Lemma StopProcesses_quiet c w w' : StopProcesses c w = Some w' → quiet w w'.
Proof.
  unfold StopProcesses. destruct (conts w !! c) as [cv|]; simpl; [|done].
  apply (for_range_inv quiet). intros p v v1 _ Hbody.
  unfold StopProcesses_body in Hbody.
  destruct (procs v !! p) as [pv|] eqn:Hp; simpl in Hbody; [|done].
  destruct (decide (Process.State pv = Running)); injection Hbody as <-; [|done].
  split; [done|]. split; [done|]. split; [done|]. split; [|done].
  intros q. simpl. destruct (decide (p = q)) as [->|Hne].
  - rewrite lookup_insert_eq. split; eauto.
  - by rewrite lookup_insert_ne.
Qed.

Lemma StartProcesses_starts c w w' : StartProcesses c w = Some w' → starts w w'.
Proof.
  unfold StartProcesses. destruct (conts w !! c) as [cv|]; simpl; [|done].
  apply (for_range_inv starts). intros p v v1 _ Hbody.
  unfold StartProcesses_body in Hbody.
  destruct (procs v !! p) as [pv|] eqn:Hp; simpl in Hbody; [|done].
  destruct (decide (Process.State pv = Running)) as [Hr|Hr];
    injection Hbody as <-; [|done].
  split; [done|]. split; [done|]. split; [done|].
  split; [by apply prefix_app_r|]. split; [|done].
  intros q Hq. simpl in Hq. apply elem_of_app in Hq as [Hq|Hq]; [by left|].
  apply list_elem_of_singleton in Hq as ->. right.
  unfold state_of. by rewrite Hp, <-Hr.
Qed.

Lemma emit_lines_stdout lines w :
  stdout (foldl (λ w l, emit (Printed l) w) w lines)
  = stdout w ++ (Printed <$> lines).
Proof.
  revert w. induction lines as [|l lines IH]; intros w; simpl.
  - by rewrite app_nil_r.
  - rewrite IH. simpl. by rewrite <-app_assoc.
Qed.

Section Shapes.

Variable range_order : nat → list (string * loc) → list (string * loc).

Lemma StartAll_starts w w' : StartAll range_order w = Some w' → starts w w'.
Proof.
  apply (range_Containers_inv range_order starts); [exact (starts_refl w)|].
  intros c v v1 Hbody.
  destruct (conts v !! c) as [cv|]; simpl in Hbody; [|done].
  transitivity (emit (Starting (Container.Name cv)) v); [apply emit_starts|].
  by apply (StartProcesses_starts c).
Qed.

Lemma StopAll_quiet w w' : StopAll range_order w = Some w' → quiet w w'.
Proof.
  apply (range_Containers_inv range_order quiet); [exact (quiet_refl w)|].
  intros c v v1 Hbody.
  destruct (conts v !! c) as [cv|]; simpl in Hbody; [|done].
  transitivity (emit (Stopping (Container.Name cv)) v); [apply emit_quiet|].
  by apply (StopProcesses_quiet c).
Qed.

Lemma Monitor_snapshot_quiet w w' :
  Monitor_snapshot range_order w = Some w' → quiet w w'.
Proof.
  intros H. transitivity (emit MonitorHeader w); [apply emit_quiet|]. revert H.
  apply (range_Containers_inv range_order quiet);
    [exact (quiet_refl (emit MonitorHeader w))|].
  intros c v v1 Hbody. unfold Monitor_row in Hbody.
  destruct (conts v !! c) as [cv|]; simpl in Hbody; [|done].
  destruct (count_active _ _ _); simpl in Hbody; [|done].
  injection Hbody as <-. apply emit_quiet.
Qed.

Lemma SendMessage_quiet a b m w w' : SendMessage a b m w = Some w' → quiet w w'.
Proof.
  unfold SendMessage. intros H.
  destruct (Containers (kernel w) !! a) as [from|];
    [destruct (Containers (kernel w) !! b) as [to|]|];
    [|injection H as <-; apply emit_quiet..].
  destruct (conts w !! from); simpl in H; [|done].
  destruct (conts w !! to); simpl in H; [|done].
  injection H as <-. apply emit_quiet.
Qed.

Lemma exec_shape e w w' : exec range_order e w = Some w' → step_shape w w' e.
Proof.
  intros Hexec.
  destruct e as [qv|c q|c|c|id name memory| | |a b m| |i]; simpl in Hexec.
  - injection Hexec as <-. by constructor.
  - unfold AddProcess in Hexec.
    destruct (conts w !! c) as [cv|] eqn:Hc; simpl in Hexec; [|done].
    destruct (procs w !! q) as [qv|] eqn:Hq; simpl in Hexec; [|done].
    injection Hexec as <-. by econstructor.
  - apply shape_starts; [|done]. by apply (StartProcesses_starts c).
  - apply shape_quiet; [|done]. by apply (StopProcesses_quiet c).
  - injection Hexec as <-. by constructor.
  - apply shape_starts; [|done]. by apply StartAll_starts.
  - apply shape_quiet; [|done]. by apply StopAll_quiet.
  - apply shape_quiet; [|done]. by apply (SendMessage_quiet a b m).
  - apply shape_quiet; [|done]. by apply Monitor_snapshot_quiet.
  - destruct (goroutine_return_inv _ _ _ Hexec) as (q & qv & lines & Hi & Hq & Ha).
    pose proof Hexec as Hexec'. unfold goroutine_return in Hexec'.
    rewrite Hi in Hexec'. simpl in Hexec'. rewrite Hq in Hexec'. simpl in Hexec'.
    rewrite Ha in Hexec'. injection Hexec' as <-.
    destruct (emit_lines_frame lines w) as (Ep & Ec & Ek & Eg & _).
    apply (shape_return w _ i q qv lines); simpl; try done.
    + by rewrite Ep.
    + by rewrite Eg.
    + apply emit_lines_stdout.
Qed.

End Shapes.

(** ** StartAll and StopAll *)

Lemma stopped_in_app ps1 ps2 p pv :
  stopped_in ps2 p (stopped_in ps1 p pv) = stopped_in (ps1 ++ ps2) p pv.
Proof.
  unfold stopped_in.
  destruct (decide (p ∈ ps1 ∧ Process.State pv = Running)) as [[Hin Hr]|Hn].
  - rewrite decide_False by (simpl; by intros [_ ?]).
    rewrite decide_True; [done|]. split; [|done]. apply elem_of_app. by left.
  - apply decide_ext. rewrite elem_of_app. tauto.
Qed.

Lemma stopped_in_perm ps1 ps2 p pv :
  ps1 ≡ₚ ps2 → stopped_in ps1 p pv = stopped_in ps2 p pv.
Proof. intros Hperm. unfold stopped_in. apply decide_ext. by rewrite Hperm. Qed.

Lemma stopped_in_not_running ps p pv :
  p ∈ ps → Process.State (stopped_in ps p pv) ≠ Running.
Proof.
  intros Hin. unfold stopped_in.
  destruct (decide (p ∈ ps ∧ Process.State pv = Running)) as [_|Hn]; [done|].
  intros Hr. apply Hn. by split.
Qed.

Lemma registry_ok_entries w :
  registry_ok w → Forall (entry_ok w) (map_to_list (Containers (kernel w))).
Proof.
  intros Hok. apply Forall_forall. intros [id c] Hin.
  apply elem_of_map_to_list in Hin. by apply (registry_ok_lookup w id c).
Qed.

Lemma StartAll_range w (l : list (string * loc)) v :
  Forall (entry_ok w) l → procs v = procs w → conts v = conts w →
  ∃ v',
    for_range l
      (λ kc v, cv ← conts v !! kc.2;
               StartProcesses kc.2 (emit (Starting (Container.Name cv)) v)) v
    = Some v' ∧
    procs v' = procs v ∧ conts v' = conts v ∧ kernel v' = kernel v ∧
    ranges v' = ranges v ∧
    stdout v' = stdout v ++ ((λ cv, Starting (Container.Name cv))
                               <$> omap (λ kc, conts w !! kc.2) l) ∧
    goroutines v' = goroutines v
      ++ (omap (λ kc, conts w !! kc.2) l
            ≫= λ cv, running w (Container.Processes cv)).
Proof.
  revert v. induction l as [|[id c] l IH]; intros v Hok Hp Hc.
  - exists v. simpl. by rewrite !app_nil_r.
  - apply Forall_cons in Hok as [(cv & Hcv & Hps) Hok]. simpl in Hcv.
    set (v1 := upd_goroutines (λ g, g ++ running w (Container.Processes cv))
                 (emit (Starting (Container.Name cv)) v)).
    destruct (IH v1 Hok Hp Hc) as (v' & Hrun & Hp' & Hc' & Hk' & Hr' & Ho' & Hg').
    exists v'. split.
    + simpl. rewrite Hc, Hcv. simpl. unfold StartProcesses. simpl.
      rewrite Hc, Hcv. simpl.
      rewrite (StartProcesses_range _ w) by done. exact Hrun.
    + rewrite Hp', Hc', Hk', Hr', Ho', Hg'. simpl. rewrite Hcv. simpl.
      by rewrite <-!app_assoc.
Qed.

Lemma StopAll_range (l : list (string * loc)) v :
  Forall (entry_ok v) l →
  ∃ v',
    for_range l
      (λ kc v, cv ← conts v !! kc.2;
               StopProcesses kc.2 (emit (Stopping (Container.Name cv)) v)) v
    = Some v' ∧
    (∀ p, procs v' !! p
          = stopped_in (omap (λ kc, conts v !! kc.2) l ≫= Container.Processes) p
              <$> procs v !! p) ∧
    conts v' = conts v ∧ kernel v' = kernel v ∧ goroutines v' = goroutines v ∧
    ranges v' = ranges v ∧
    stdout v' = stdout v ++ ((λ cv, Stopping (Container.Name cv))
                               <$> omap (λ kc, conts v !! kc.2) l).
Proof.
  revert v. induction l as [|[id c] l IH]; intros v Hok.
  - exists v. simpl. split; [done|]. rewrite app_nil_r. split; [|done].
    intros p. destruct (procs v !! p) as [pv|]; [|done].
    change (Some pv = Some (stopped_in [] p pv)). f_equal.
  - apply Forall_cons in Hok as [(cv & Hcv & Hps) Hok]. simpl in Hcv.
    destruct (StopProcesses_range (Container.Processes cv)
                (emit (Stopping (Container.Name cv)) v) Hps)
      as (v1 & Hrun1 & Hp1 & Hc1 & Hk1 & Ho1 & Hg1 & Hr1).
    simpl in Hp1, Hc1, Hk1, Ho1, Hg1, Hr1.
    destruct (IH v1) as (v' & Hrun & Hp' & Hc' & Hk' & Hg' & Hr' & Ho').
    { eapply Forall_impl; [exact Hok|]. intros kc (cv' & Hcv' & Hps').
      exists cv'. rewrite Hc1. split; [done|].
      eapply Forall_impl; [exact Hps'|]. intros p [pv E]. simpl.
      rewrite Hp1, E. simpl. eauto. }
    exists v'. split.
    + simpl. rewrite Hcv. simpl. unfold StopProcesses. simpl. rewrite Hcv. simpl.
      rewrite Hrun1. exact Hrun.
    + rewrite Hc', Hk', Hg', Hr', Ho', Hc1, Hk1, Hg1, Hr1, Ho1. simpl.
      rewrite Hcv. simpl. split; [|by rewrite <-!app_assoc].
      intros p. rewrite Hp', Hp1, Hc1.
      destruct (procs v !! p) as [pv|]; [|done].
      change (Some (stopped_in (omap (λ kc, conts v !! kc.2) l
                                  ≫= Container.Processes) p
                      (stopped_in (Container.Processes cv) p pv))
              = Some (stopped_in (Container.Processes cv
                                    ++ (omap (λ kc, conts v !! kc.2) l
                                          ≫= Container.Processes)) p pv)).
      by rewrite stopped_in_app.
Qed.

Lemma quiet_registry_ok w w' : quiet w w' → registry_ok w → registry_ok w'.
Proof.
  intros (Hc & Hk & _ & Hd & _) Hok. unfold registry_ok. rewrite Hk.
  intros id c Hid. specialize (Hok id c Hid). simpl in *. rewrite Hc.
  destruct (conts w !! c) as [cv|]; [|done].
  eapply Forall_impl; [exact Hok|]. intros p Hp. simpl. by apply Hd.
Qed.

Section All.

Variable range_order : nat → list (string * loc) → list (string * loc).
Hypothesis range_order_perm : ∀ n l, range_order n l ≡ₚ l.

Lemma range_order_entries w :
  registry_ok w →
  Forall (entry_ok w)
    (range_order (ranges w) (map_to_list (Containers (kernel w)))).
Proof.
  intros Hok. rewrite range_order_perm. by apply registry_ok_entries.
Qed.

Lemma range_order_registered w :
  omap (λ kc, conts w !! kc.2)
    (range_order (ranges w) (map_to_list (Containers (kernel w))))
  ≡ₚ registered w.
Proof. unfold registered. by rewrite range_order_perm. Qed.

(** What [StopAll] does, in terms of the order [cvs] in which it visits
    the containers. *)
Lemma StopAll_effect w :
  registry_ok w →
  ∃ w' cvs, StopAll range_order w = Some w' ∧ cvs ≡ₚ registered w ∧
    (∀ p, procs w' !! p = stopped_in (held w) p <$> procs w !! p) ∧
    conts w' = conts w ∧ kernel w' = kernel w ∧ goroutines w' = goroutines w ∧
    stdout w' = stdout w ++ ((λ cv, Stopping (Container.Name cv)) <$> cvs).
Proof.
  intros Hok.
  destruct (StopAll_range
              (range_order (ranges w) (map_to_list (Containers (kernel w))))
              (next_range w))
    as (w' & Hrun & Hp & Hc & Hk & Hg & _ & Ho).
  { exact (range_order_entries w Hok). }
  simpl in Hp, Hc, Hk, Hg, Ho.
  eexists w', _. split; [exact Hrun|]. split; [apply range_order_registered|].
  split; [|done]. intros p. rewrite Hp.
  destruct (procs w !! p) as [pv|]; [|done].
  simpl. f_equal.
  apply stopped_in_perm. unfold held. by rewrite range_order_registered.
Qed.

(** X1: in a state whose pointers are live, [StartAll] returns.  It
    visits the registered containers in some order; for each it prints
    the starting line and starts one goroutine per process that is
    [Running], in the order of the slice.  No process, container or
    registry entry changes. *)
Theorem StartAll_spec (w : world) :
  registry_ok w →
  ∃ w' cvs, StartAll range_order w = Some w' ∧ cvs ≡ₚ registered w ∧
    same_state w w' ∧
    stdout w' = stdout w ++ ((λ cv, Starting (Container.Name cv)) <$> cvs) ∧
    goroutines w'
    = goroutines w ++ (cvs ≫= λ cv, running w (Container.Processes cv)).
Proof.
  intros Hok.
  destruct (StartAll_range w
              (range_order (ranges w) (map_to_list (Containers (kernel w))))
              (next_range w))
    as (w' & Hrun & Hp & Hc & Hk & _ & Ho & Hg); [|done|done|].
  { by apply range_order_entries. }
  eexists w', _. split; [exact Hrun|]. split; [apply range_order_registered|].
  split; [done|]. split; [exact Ho|exact Hg].
Qed.

Lemma held_stopped w w' p :
  (∀ q, procs w' !! q = stopped_in (held w) q <$> procs w !! q) →
  p ∈ held w → state_of w' p ≠ Some Running.
Proof.
  intros Hp Hin. unfold state_of. rewrite Hp.
  destruct (procs w !! p) as [pv|]; [|done]. simpl. intros [= Hr].
  by apply (stopped_in_not_running (held w) p pv).
Qed.

(** X2: in a state whose pointers are live, [StopAll] returns.  It prints
    one stopping line per registered container; every process held by a
    registered container that was [Running] is [Stopped]; a process that
    was not [Running], or that no registered container holds, is as it
    was.  Containers, registry and pending goroutines are unchanged: no
    action in flight is cancelled. *)
Theorem StopAll_spec (w : world) :
  registry_ok w →
  ∃ w' cvs, StopAll range_order w = Some w' ∧ cvs ≡ₚ registered w ∧
    stdout w' = stdout w ++ ((λ cv, Stopping (Container.Name cv)) <$> cvs) ∧
    (∀ p pv, p ∈ held w → procs w !! p = Some pv →
       Process.State pv = Running →
       procs w' !! p = Some (Process.with_State Stopped pv)) ∧
    (∀ p pv, procs w !! p = Some pv → Process.State pv ≠ Running →
       procs w' !! p = Some pv) ∧
    (∀ p, p ∉ held w → procs w' !! p = procs w !! p) ∧
    (∀ p, p ∈ held w → state_of w' p ≠ Some Running) ∧
    conts w' = conts w ∧ kernel w' = kernel w ∧ goroutines w' = goroutines w.
Proof.
  intros Hok.
  destruct (StopAll_effect w Hok) as (w' & cvs & Hrun & Hcvs & Hp & Hc & Hk & Hg & Ho).
  exists w', cvs. split; [exact Hrun|]. split; [exact Hcvs|]. split; [exact Ho|].
  split; [|split; [|split; [|split; [|done]]]].
  - intros p pv Hin E Hr. rewrite Hp, E. simpl. unfold stopped_in.
    by rewrite decide_True.
  - intros p pv E Hr. rewrite Hp, E. simpl. unfold stopped_in.
    by rewrite decide_False by (by intros [_ ?]).
  - intros p Hin. rewrite Hp. destruct (procs w !! p) as [pv|]; [|done].
    simpl. unfold stopped_in. by rewrite decide_False by (by intros [? _]).
  - intros p Hin. by apply (held_stopped w).
Qed.

Lemma running_none w ps :
  (∀ p, p ∈ ps → state_of w p ≠ Some Running) → running w ps = [].
Proof.
  unfold running. induction ps as [|p ps IH]; intros Hps; [done|].
  rewrite filter_cons_False by (apply Hps; left).
  apply IH. intros q Hq. apply Hps. by right.
Qed.

(** X3: right after [StopAll], a snapshot of the monitor has one row per
    registered id and every row reports 0 running processes. *)
Theorem StopAll_then_snapshot (w : world) :
  registry_ok w →
  ∃ w1 w2 rows, StopAll range_order w = Some w1 ∧
    Monitor_snapshot range_order w1 = Some w2 ∧
    stdout w2 = stdout w1 ++ MonitorHeader :: rows ∧
    length rows = size (Containers (kernel w)) ∧
    Forall (λ o, ∃ name memory cpu, o = MonitorRow name memory cpu 0) rows.
Proof.
  intros Hok.
  destruct (StopAll_effect w Hok) as (w1 & cvs & Hrun & _ & Hp & Hc & Hk & _).
  assert (Hok1 : registry_ok w1).
  { apply (quiet_registry_ok w); [|done]. by apply (StopAll_quiet range_order). }
  destruct (Monitor_snapshot_spec range_order range_order_perm w1 Hok1)
    as (block & (rows & -> & Hrows) & Hsnap).
  assert (Hreg : registered w1 = registered w)
    by (unfold registered; by rewrite Hc, Hk).
  exists w1, (observe (MonitorHeader :: rows) w1), rows.
  split; [exact Hrun|]. split; [exact Hsnap|].
  split; [done|]. split.
  - by rewrite Hrows, length_fmap, registered_length, Hk.
  - rewrite Hrows. apply Forall_fmap, Forall_forall. intros cv Hcv. simpl.
    exists (Container.Name cv), (Container.MemoryMB cv), (Container.CPULoad cv).
    unfold row_of. f_equal. unfold running_count.
    fold (running w1 (Container.Processes cv)). rewrite running_none; [done|].
    intros p Hin. apply (held_stopped w); [done|].
    unfold held. apply list_elem_of_bind. exists cv. by rewrite <-Hreg.
Qed.

End All.

Lemma demo_perm : ∀ (n : nat) (l : list (string * loc)), in_order n l ≡ₚ l.
Proof. intros n l. reflexivity. Defined.

Lemma StartAll_spec_witness :
  ∃ w', StartAll in_order demo = Some w' ∧
    length (goroutines w') = 4%nat ∧
    length (stdout w') = 4%nat.
Proof.
  destruct (StartAll_spec in_order demo_perm demo demo_ok)
    as (w' & cvs & Hrun & Hcvs & _ & Ho & Hg).
  exists w'. split; [exact Hrun|].
  assert (Hlen : length cvs = 2%nat) by (rewrite Hcvs; vm_compute; reflexivity).
  split; [|rewrite Ho, length_app, length_fmap, Hlen; vm_compute; reflexivity].
  rewrite Hg, length_app.
  assert (Hb : (cvs ≫= λ cv, running demo (Container.Processes cv))
               ≡ₚ (registered demo ≫= λ cv, running demo (Container.Processes cv)))
    by (by rewrite Hcvs).
  rewrite Hb. vm_compute. reflexivity.
Defined.

Lemma StopAll_spec_witness :
  ∃ w', StopAll in_order demo = Some w' ∧
    state_of w' 1%positive ≠ Some Running ∧
    goroutines w' = goroutines demo.
Proof.
  destruct (StopAll_spec in_order demo_perm demo demo_ok)
    as (w' & cvs & Hrun & _ & _ & _ & _ & _ & Hnot & _ & _ & Hg).
  exists w'. split; [exact Hrun|]. split; [|exact Hg].
  apply Hnot. vm_compute. left.
Defined.

Lemma StopAll_then_snapshot_witness :
  ∃ w1 w2 rows, StopAll in_order demo = Some w1 ∧
    Monitor_snapshot in_order w1 = Some w2 ∧
    stdout w2 = stdout w1 ++ MonitorHeader :: rows ∧
    length rows = 2%nat.
Proof.
  destruct (StopAll_then_snapshot in_order demo_perm demo demo_ok)
    as (w1 & w2 & rows & H1 & H2 & Ho & Hlen & _).
  exists w1, w2, rows. split; [exact H1|]. split; [exact H2|].
  split; [exact Ho|]. rewrite Hlen. vm_compute. reflexivity.
Defined.

(** ** How the container operations compose *)

Lemma StopProcesses_range_ok ps w w' :
  (∀ p, procs w' !! p = stopped_in ps p <$> procs w !! p) →
  procs_ok w ps → procs_ok w' ps.
Proof.
  intros Hp Hok. eapply Forall_impl; [exact Hok|]. intros p [pv E]. simpl.
  rewrite Hp, E. simpl. eauto.
Qed.

(** X4: [StartProcesses] right after [StopProcesses] on the same
    container starts nothing and leaves the state exactly as it was: a
    stopped container is not restarted by starting it again. *)
Theorem StopProcesses_then_StartProcesses (c : loc) (cv : Container.t) (w : world) :
  conts w !! c = Some cv →
  procs_ok w (Container.Processes cv) →
  ∃ w1, StopProcesses c w = Some w1 ∧ StartProcesses c w1 = Some w1.
Proof.
  intros Hc Hok. unfold StopProcesses. rewrite Hc. simpl.
  destruct (StopProcesses_range _ _ Hok) as (w1 & Hrun & Hp & Hcs & _).
  exists w1. split; [exact Hrun|].
  unfold StartProcesses. rewrite Hcs, Hc. simpl.
  rewrite (StartProcesses_range _ w1 w1);
    [|by apply (StopProcesses_range_ok _ w)|done].
  f_equal. apply world_eq; simpl; try done.
  fold (running w1 (Container.Processes cv)).
  rewrite running_none; [by rewrite app_nil_r|].
  intros p Hin. unfold state_of. rewrite Hp.
  destruct (procs w !! p) as [pv|]; [|done]. simpl. intros [= Hr].
  by apply (stopped_in_not_running (Container.Processes cv) p pv).
Qed.

Lemma demo_c1_ok :
  procs_ok demo
    (Container.Processes
       (Container.mk "c1" "WebServer" 512 0%float [1%positive; 2%positive])).
Proof. apply (bool_decide_unpack _). vm_compute. reflexivity. Defined.

Lemma StopProcesses_then_StartProcesses_witness :
  ∃ w1, StopProcesses 1%positive demo = Some w1 ∧
    StartProcesses 1%positive w1 = Some w1.
Proof.
  exact (StopProcesses_then_StartProcesses 1%positive _ demo demo_c1 demo_c1_ok).
Defined.

(** X5: [StartProcesses] does not remember what it has started: a second
    call while the processes are still [Running] starts a second
    goroutine for each of them. *)
Theorem StartProcesses_twice (c : loc) (cv : Container.t) (w : world) :
  conts w !! c = Some cv →
  procs_ok w (Container.Processes cv) →
  ∃ w1 w2, StartProcesses c w = Some w1 ∧ StartProcesses c w1 = Some w2 ∧
    same_state w w2 ∧ stdout w2 = stdout w ∧
    goroutines w2
    = goroutines w ++ running w (Container.Processes cv)
                   ++ running w (Container.Processes cv).
Proof.
  intros Hc Hok. unfold StartProcesses. rewrite Hc. simpl.
  rewrite (StartProcesses_range _ w w) by done.
  eexists _, _. split; [reflexivity|]. simpl. rewrite Hc. simpl.
  rewrite (StartProcesses_range _ w) by done.
  split; [reflexivity|]. simpl. split; [done|]. split; [done|].
  by rewrite <-app_assoc.
Qed.

Lemma StartProcesses_twice_witness :
  ∃ w1 w2, StartProcesses 1%positive demo = Some w1 ∧
    StartProcesses 1%positive w1 = Some w2 ∧
    goroutines w2 = [1; 2; 1; 2]%positive.
Proof.
  destruct (StartProcesses_twice 1%positive _ demo demo_c1 demo_c1_ok)
    as (w1 & w2 & H1 & H2 & _ & _ & Hg).
  exists w1, w2. split; [exact H1|]. split; [exact H2|].
  rewrite Hg. vm_compute. reflexivity.
Defined.

(** X6: [AddProcess] followed by [StartProcesses] on the same container
    starts a goroutine for the process added, whatever its state was
    before: adding a stopped or completed process again is the way to run
    it again. *)
Theorem AddProcess_then_StartProcesses (c p : loc) (cv : Container.t)
    (pv : Process.t) (w : world) :
  conts w !! c = Some cv →
  procs_ok w (Container.Processes cv) →
  procs w !! p = Some pv →
  ∃ w1 w2 started, AddProcess c p w = Some w1 ∧
    StartProcesses c w1 = Some w2 ∧
    goroutines w2 = goroutines w ++ started ∧
    started = running w1 (Container.Processes cv ++ [p]) ∧
    p ∈ started.
Proof.
  intros Hc Hok Hp. unfold AddProcess. rewrite Hc. simpl. rewrite Hp. simpl.
  eexists _, _, _. split; [reflexivity|].
  set (w1 := upd_conts _ _).
  assert (Hp1 : procs w1 !! p = Some (Process.with_State Running pv))
    by (simpl; by rewrite lookup_insert_eq).
  assert (Hok1 : procs_ok w1 (Container.Processes cv ++ [p])).
  { apply Forall_app. split; [|by repeat constructor; eauto].
    eapply Forall_impl; [exact Hok|]. intros q [qv E]. simpl.
    destruct (decide (q = p)) as [->|Hne]; [by rewrite lookup_insert_eq|].
    rewrite lookup_insert_ne by done. eauto. }
  unfold StartProcesses.
  assert (Hc1 : conts w1 !! c
            = Some (Container.with_Processes (Container.Processes cv ++ [p]) cv))
    by (simpl; by rewrite lookup_insert_eq).
  rewrite Hc1. simpl. rewrite (StartProcesses_range _ w1 w1) by done.
  split; [reflexivity|]. split; [reflexivity|]. split; [reflexivity|].
  unfold running. apply list_elem_of_filter. split.
  - change (Process.State <$> procs w1 !! p = Some Running). by rewrite Hp1.
  - apply elem_of_app. right. left.
Qed.

Lemma AddProcess_then_StartProcesses_witness :
  ∃ w1 w2, AddProcess 1%positive 1%positive demo_stopped = Some w1 ∧
    StartProcesses 1%positive w1 = Some w2 ∧
    goroutines w2 = [1; 1]%positive.
Proof.
  destruct (AddProcess_then_StartProcesses 1%positive 1%positive
              (Container.mk "c1" "WebServer" 512 0%float [1%positive; 2%positive])
              (Process.with_State Stopped (exampleProcess "HTTP Server" 5))
              demo_stopped)
    as (w1 & w2 & started & H1 & H2 & Hg & -> & _).
  - vm_compute. reflexivity.
  - apply (bool_decide_unpack _). vm_compute. reflexivity.
  - vm_compute. reflexivity.
  - exists w1, w2. split; [exact H1|]. split; [exact H2|]. rewrite Hg.
    assert (E : w1 = default demo_stopped
                       (AddProcess 1%positive 1%positive demo_stopped)).
    { rewrite H1. reflexivity. }
    rewrite E. vm_compute. reflexivity.
Defined.

(** ** What holds along every run *)

Lemma procs_ok_mono w w' ps :
  (∀ p, is_Some (procs w !! p) → is_Some (procs w' !! p)) →
  procs_ok w ps → procs_ok w' ps.
Proof. intros Hd Hok. eapply Forall_impl; [exact Hok|]. intros p. apply Hd. Qed.

Lemma kernel_inv_NewKernel : kernel_inv NewKernel.
Proof.
  split; [|split].
  - intros id c H. simpl in H. by rewrite lookup_empty in H.
  - intros c cv H. simpl in H. by rewrite lookup_empty in H.
  - constructor.
Qed.

Lemma kernel_inv_registry_ok w : kernel_inv w → registry_ok w.
Proof.
  intros (Hreg & Hconts & _) id c Hid. simpl.
  destruct (Hreg id c Hid) as (cv & Hcv & _). rewrite Hcv. by apply (Hconts c).
Qed.

Lemma kernel_inv_inj w id1 id2 c :
  kernel_inv w → Containers (kernel w) !! id1 = Some c →
  Containers (kernel w) !! id2 = Some c → id1 = id2.
Proof.
  intros (Hreg & _) H1 H2.
  destruct (Hreg id1 c H1) as (cv1 & E1 & <-).
  destruct (Hreg id2 c H2) as (cv2 & E2 & <-). congruence.
Qed.

#[global] Instance grows_refl : Reflexive grows.
Proof.
  intros w. split; [done|]. split; [done|]. split; [done|].
  intros c cv Hc. by exists cv.
Qed.

#[global] Instance grows_trans : Transitive grows.
Proof.
  intros w1 w2 w3 (Ho & Hk & Hp & Hc) (Ho' & Hk' & Hp' & Hc').
  split; [by etransitivity|]. split; [auto|]. split; [auto|].
  intros c cv E. destruct (Hc c cv E) as (cv2 & E2 & Hi & Hn & Hm & Hl & Hps).
  destruct (Hc' c cv2 E2) as (cv3 & E3 & Hi' & Hn' & Hm' & Hl' & Hps').
  exists cv3. split; [done|]. repeat split; try congruence. by etransitivity.
Qed.

Lemma fresh_conts_ne w c cv :
  conts w !! c = Some cv → c ≠ fresh (dom (conts w)).
Proof.
  intros Hc ->. pose proof (is_fresh (dom (conts w))) as Hf.
  apply not_elem_of_dom in Hf. congruence.
Qed.

Lemma fresh_procs_ne w p :
  is_Some (procs w !! p) → p ≠ fresh (dom (procs w)).
Proof.
  intros [pv Hp] ->. pose proof (is_fresh (dom (procs w))) as Hf.
  apply not_elem_of_dom in Hf. congruence.
Qed.

Lemma step_shape_live w w' e q :
  step_shape w w' e → is_Some (procs w !! q) → is_Some (procs w' !! q).
Proof.
  intros Hs Hq.
  destruct Hs as [e (_ & _ & _ & Hd & _) _|e (E & _) _
                 |pv E|c p cv pv Hcv Hpv E|id name memory E
                 |i p pv lines Hi Hpv Ha Ep Eg Ec Ek Eo].
  - by apply Hd.
  - by rewrite E.
  - subst w'. simpl. rewrite lookup_insert_ne; [done|].
    intros E. symmetry in E. revert E. by apply fresh_procs_ne.
  - subst w'. simpl. destruct (decide (p = q)) as [->|Hne].
    + by rewrite lookup_insert_eq.
    + by rewrite lookup_insert_ne.
  - by subst w'.
  - rewrite Ep. destruct (decide (p = q)) as [->|Hne].
    + by rewrite lookup_insert_eq.
    + by rewrite lookup_insert_ne.
Qed.

Lemma step_shape_grows w w' e : step_shape w w' e → grows w w'.
Proof.
  intros Hs. split; [|split; [|split; [intros q; by apply (step_shape_live w w' e)|]]].
  - destruct Hs as [e (_ & _ & _ & _ & Ho) _|e (_ & _ & _ & _ & _ & Ho) _
                   |pv E|c p cv pv Hcv Hpv E|id name memory E
                   |i p pv lines Hi Hpv Ha Ep Eg Ec Ek Eo];
      try subst w'; simpl; try done.
    + by apply prefix_app_r.
    + rewrite Eo. by apply prefix_app_r.
  - intros id0 Hid.
    destruct Hs as [e (_ & Hk & _) _|e (_ & _ & Hk & _) _
                   |pv E|c p cv pv Hcv Hpv E|id name memory E
                   |i p pv lines Hi Hpv Ha Ep Eg Ec Ek Eo];
      try subst w'; simpl; try done; try (by rewrite Hk).
    + destruct (decide (id = id0)) as [->|Hne].
      * by rewrite lookup_insert_eq.
      * by rewrite lookup_insert_ne.
    + by rewrite Ek.
  - intros c0 cv0 Hc0.
    destruct Hs as [e (Hc & _) _|e (_ & Hc & _) _
                   |pv E|c p cv pv Hcv Hpv E|id name memory E
                   |i p pv lines Hi Hpv Ha Ep Eg Ec Ek Eo];
      try subst w'; simpl; try (exists cv0; by rewrite ?Hc).
    + destruct (decide (c = c0)) as [->|Hne].
      * rewrite lookup_insert_eq. eexists. split; [done|]. simpl.
        assert (cv = cv0) as -> by congruence.
        repeat split. by apply prefix_app_r.
      * rewrite lookup_insert_ne by done. by exists cv0.
    + rewrite lookup_insert_ne; [by exists cv0|].
      intros E. symmetry in E. revert E. by apply (fresh_conts_ne w c0 cv0).
    + exists cv0. by rewrite Ec.
Qed.

Lemma step_shape_kernel_inv w w' e :
  step_shape w w' e → kernel_inv w → kernel_inv w'.
Proof.
  intros Hs (Hreg & Hconts & Hgo).
  pose proof (λ q, step_shape_live w w' e q Hs) as Hlive.
  destruct Hs as [e (Hc & Hk & Hg & _) _|e (Hp & Hc & Hk & _ & Hg & _) _
                 |pv E|c p cv pv Hcv Hpv E|id name memory E
                 |i p pv lines Hi Hpv Ha Ep Eg Ec Ek _].
  - split; [|split].
    + rewrite Hk, Hc. exact Hreg.
    + rewrite Hc. intros c cv E. by apply (procs_ok_mono w), (Hconts c).
    + rewrite Hg. by apply (procs_ok_mono w).
  - split; [|split].
    + rewrite Hk, Hc. exact Hreg.
    + rewrite Hc. intros c cv E. by apply (procs_ok_mono w), (Hconts c).
    + apply Forall_forall. intros p Hin. apply Hlive.
      destruct (Hg p Hin) as [Hold|Hrun].
      * by apply (proj1 (Forall_forall _ _) Hgo).
      * unfold state_of in Hrun. by destruct (procs w !! p).
  - subst w'. split; [|split]; simpl.
    + exact Hreg.
    + intros c cv E. by apply (procs_ok_mono w), (Hconts c).
    + by apply (procs_ok_mono w).
  - split; [|split]; subst w'; simpl.
    + intros id c0 Hid. destruct (Hreg id c0 Hid) as (cv0 & Hcv0 & Hid0).
      destruct (decide (c = c0)) as [->|Hne].
      * rewrite lookup_insert_eq. eexists. split; [done|]. simpl. congruence.
      * rewrite lookup_insert_ne by done. eauto.
    + intros c0 cv0 Hc0. destruct (decide (c = c0)) as [->|Hne].
      * rewrite lookup_insert_eq in Hc0. injection Hc0 as <-. simpl.
        apply Forall_app. split.
        -- by apply (procs_ok_mono w), (Hconts c0).
        -- repeat constructor. apply Hlive. eauto.
      * rewrite lookup_insert_ne in Hc0 by done.
        by apply (procs_ok_mono w), (Hconts c0).
    + by apply (procs_ok_mono w).
  - split; [|split]; subst w'; simpl.
    + intros id0 c0 Hid. destruct (decide (id = id0)) as [->|Hne].
      * rewrite lookup_insert_eq in Hid. injection Hid as <-.
        rewrite lookup_insert_eq. eauto.
      * rewrite lookup_insert_ne in Hid by done.
        destruct (Hreg id0 c0 Hid) as (cv0 & Hcv0 & Hid0).
        rewrite lookup_insert_ne; [eauto|].
        intros E. symmetry in E. revert E. by apply (fresh_conts_ne w c0 cv0).
    + intros c0 cv0 Hc0.
      destruct (decide (fresh (dom (conts w)) = c0)) as [E|Hne].
      * rewrite E, lookup_insert_eq in Hc0. injection Hc0 as <-. constructor.
      * rewrite lookup_insert_ne in Hc0 by done. by apply (Hconts c0).
    + exact Hgo.
  - split; [|split].
    + rewrite Ek, Ec. exact Hreg.
    + rewrite Ec. intros c cv E. by apply (procs_ok_mono w), (Hconts c).
    + rewrite Eg. apply Forall_forall. intros q Hq. apply Hlive.
      apply list_elem_of_delete_inv in Hq.
      by apply (proj1 (Forall_forall _ _) Hgo).
Qed.

Section Along.

Variable range_order : nat → list (string * loc) → list (string * loc).

Lemma run_inv (I : world → Prop) es w w' :
  (∀ e v v', exec range_order e v = Some v' → I v → I v') →
  run range_order es w = Some w' → I w → I w'.
Proof.
  intros Hstep. revert w. induction es as [|e es IH]; intros w Hrun Hw;
    simpl in Hrun.
  - by injection Hrun as <-.
  - destruct (exec range_order e w) as [w1|] eqn:He; simpl in Hrun; [|done].
    apply (IH w1); [done|]. by apply (Hstep e w).
Qed.

(** X7: in every state reached by a run from [NewKernel], every id of the
    registry leads to a live container whose [ID] field is that id, all
    pointers the operations follow are live, and two ids never lead to
    the same container. *)
Theorem run_kernel_inv (es : list event) (w : world) :
  run range_order es NewKernel = Some w →
  registry_ok w ∧
  (∀ id c, Containers (kernel w) !! id = Some c →
     ∃ cv, conts w !! c = Some cv ∧ Container.ID cv = id) ∧
  (∀ id1 id2 c, Containers (kernel w) !! id1 = Some c →
     Containers (kernel w) !! id2 = Some c → id1 = id2) ∧
  (∀ c cv, conts w !! c = Some cv → procs_ok w (Container.Processes cv)) ∧
  procs_ok w (goroutines w).
Proof.
  intros Hrun.
  assert (Hinv : kernel_inv w).
  { apply (run_inv kernel_inv es NewKernel w); [|done|apply kernel_inv_NewKernel].
    intros e v v' He. apply (step_shape_kernel_inv v v' e).
    by apply (exec_shape range_order). }
  split; [by apply kernel_inv_registry_ok|].
  split; [apply Hinv|]. split; [|apply Hinv].
  intros id1 id2 c. by apply kernel_inv_inj.
Qed.

(** X8: along every run nothing is removed: standard output only grows,
    a registered id stays registered, a process object stays live, and a
    container keeps its id, name and counters while its slice of
    processes only grows at the end. *)
Theorem run_grows (es : list event) (w w' : world) :
  run range_order es w = Some w' →
  stdout w `prefix_of` stdout w' ∧
  (∀ id, is_Some (Containers (kernel w) !! id) →
         is_Some (Containers (kernel w') !! id)) ∧
  (∀ p, is_Some (procs w !! p) → is_Some (procs w' !! p)) ∧
  (∀ c cv, conts w !! c = Some cv →
     ∃ cv', conts w' !! c = Some cv' ∧
       Container.ID cv' = Container.ID cv ∧
       Container.Name cv' = Container.Name cv ∧
       Container.MemoryMB cv' = Container.MemoryMB cv ∧
       Container.CPULoad cv' = Container.CPULoad cv ∧
       Container.Processes cv `prefix_of` Container.Processes cv').
Proof.
  intros Hrun. change (grows w w').
  apply (run_inv (grows w) es w w'); [|done|reflexivity].
  intros e v v' He Hv. transitivity v; [done|].
  apply (step_shape_grows v v' e). by apply (exec_shape range_order).
Qed.

Lemma exec_not_started e w w' p pv :
  exec range_order e w = Some w' → is_start e = false →
  procs w !! p = Some pv → Process.State pv ≠ Completed →
  p ∉ goroutines w →
  ∃ pv', procs w' !! p = Some pv' ∧ Process.State pv' ≠ Completed ∧
         p ∉ goroutines w'.
Proof.
  intros He Hns Hp Hs Hg.
  destruct (exec_process range_order e w w' p pv He Hp) as (s' & Hp' & Ht).
  exists (Process.with_State s' pv). split; [exact Hp'|]. split.
  - simpl. destruct Ht as [->|Ht]; [done|].
    destruct e; try done.
    + by destruct Ht as [_ ->].
    + by destruct Ht as [_ ->].
    + by destruct Ht as [_ ->].
    + destruct Ht as [Hi _]. exfalso. apply Hg.
      apply list_elem_of_lookup. eauto.
  - pose proof (exec_shape range_order e w w' He) as Hshape.
    destruct Hshape as [e (_ & _ & E & _) _|e _ Hst
                       |qv E|c q cv qv Hcv Hqv E|id name memory E
                       |i q qv lines Hi Hqv Hact Ep Eg Ec Ek Eo].
    + by rewrite E.
    + congruence.
    + by subst w'.
    + by subst w'.
    + by subst w'.
    + rewrite Eg. intros Hin. by apply list_elem_of_delete_inv in Hin.
Qed.

(** X9: a process is set to [Completed] only by a goroutine that
    [StartProcesses] or [StartAll] has started for it: along a run
    without these two calls, a live process that is not [Completed] and
    has no pending goroutine never becomes [Completed], and no goroutine
    for it appears. *)
Theorem no_completion_without_start (es : list event) (w w' : world)
    (p : loc) (pv : Process.t) :
  run range_order es w = Some w' →
  Forall (λ e, is_start e = false) es →
  procs w !! p = Some pv → Process.State pv ≠ Completed →
  p ∉ goroutines w →
  state_of w' p ≠ Some Completed ∧ p ∉ goroutines w'.
Proof.
  revert w pv. induction es as [|e es IH]; intros w pv Hrun Hes Hp Hs Hg;
    simpl in Hrun.
  - injection Hrun as <-. split; [|done]. unfold state_of. rewrite Hp. simpl.
    congruence.
  - apply Forall_cons in Hes as [He Hes].
    destruct (exec range_order e w) as [w1|] eqn:Hexec; simpl in Hrun; [|done].
    destruct (exec_not_started e w w1 p pv Hexec He Hp Hs Hg)
      as (pv1 & Hp1 & Hs1 & Hg1).
    by apply (IH w1 pv1).
Qed.

End Along.

Lemma main_calls_run :
  run in_order (main_calls 5) NewKernel = Some after_main_calls.
Proof. vm_compute. reflexivity. Defined.

Lemma run_kernel_inv_witness :
  registry_ok after_main_calls ∧
  procs_ok after_main_calls (goroutines after_main_calls).
Proof.
  destruct (run_kernel_inv in_order (main_calls 5) after_main_calls main_calls_run)
    as (Hok & _ & _ & _ & Hgo).
  split; [exact Hok|exact Hgo].
Defined.

Lemma run_grows_witness :
  stdout NewKernel `prefix_of` stdout after_main_calls ∧
  ∀ p, is_Some (procs NewKernel !! p) → is_Some (procs after_main_calls !! p).
Proof.
  destruct (run_grows in_order (main_calls 5) NewKernel after_main_calls
              main_calls_run) as (Ho & _ & Hp & _).
  split; [exact Ho|exact Hp].
Defined.

Lemma no_completion_without_start_witness :
  ∃ w', run in_order [CallStopProcesses 1%positive;
                      CallAddProcess 2%positive 1%positive;
                      CallSendMessage "c1" "c2" "ping"] demo = Some w' ∧
    state_of w' 1%positive ≠ Some Completed ∧ 1%positive ∉ goroutines w'.
Proof.
  set (es := [CallStopProcesses 1%positive;
              CallAddProcess 2%positive 1%positive;
              CallSendMessage "c1" "c2" "ping"]).
  set (w' := default demo (run in_order es demo)).
  assert (Hrun : run in_order es demo = Some w') by (vm_compute; reflexivity).
  exists w'. split; [exact Hrun|].
  apply (no_completion_without_start in_order es demo w' 1%positive
           (exampleProcess "HTTP Server" 5) Hrun).
  - repeat constructor.
  - vm_compute. reflexivity.
  - simpl. discriminate.
  - vm_compute. intros H. inversion H.
Defined.

(** ** CreateContainer, call after call *)

Section Creations.

Variable range_order : nat → list (string * loc) → list (string * loc).

(** X10: calls of [CreateContainer] with distinct ids that are not
    registered yet all succeed; afterwards every one of these ids leads
    to its own container, with the name and memory given, CPU load 0 and
    no process; what was registered before is still registered and
    unchanged; the registry has grown by the number of calls and standard
    output by their creation lines, in order. *)
Theorem creations_retrievable (specs : list (string * (string * Z))) (w : world) :
  NoDup specs.*1 →
  (∀ s, s ∈ specs → Containers (kernel w) !! s.1 = None) →
  ∃ w', run range_order (creations specs) w = Some w' ∧
    (∀ s, s ∈ specs →
       ∃ c, Containers (kernel w') !! s.1 = Some c ∧
         conts w' !! c = Some (Container.mk s.1 s.2.1 s.2.2 0%float [])) ∧
    (∀ id c cv, Containers (kernel w) !! id = Some c → conts w !! c = Some cv →
       Containers (kernel w') !! id = Some c ∧ conts w' !! c = Some cv) ∧
    size (Containers (kernel w'))
    = (size (Containers (kernel w)) + length specs)%nat ∧
    stdout w' = stdout w ++ ((λ s, Created s.2.1) <$> specs) ∧
    procs w' = procs w.
Proof.
  revert w. induction specs as [|s specs IH]; intros w Hnd Hnew.
  - exists w. split; [done|]. split; [by intros s Hs; apply elem_of_nil in Hs|].
    split; [done|]. simpl. split; [lia|]. by rewrite app_nil_r.
  - simpl in Hnd. apply NoDup_cons in Hnd as [Hs Hnd].
    destruct (CreateContainer_effect s.1 s.2.1 s.2.2 w)
      as (Hfresh & Hreg & Hcv & Hout & Hids & Hconts & Hprocs & _).
    set (c1 := (CreateContainer s.1 s.2.1 s.2.2 w).1) in *.
    set (w1 := (CreateContainer s.1 s.2.1 s.2.2 w).2) in *.
    assert (Hne : ∀ s', s' ∈ specs → s'.1 ≠ s.1).
    { intros s' Hs' E. apply Hs. rewrite <-E. by apply list_elem_of_fmap_2. }
    destruct (IH w1 Hnd) as (w' & Hrun & Hall & Hold & Hsize & Hout' & Hprocs').
    { intros s' Hs'. rewrite Hids by (by apply Hne). apply Hnew. by right. }
    exists w'. split; [exact Hrun|]. split; [|split; [|split; [|split]]].
    + intros s' Hs'. apply elem_of_cons in Hs' as [->|Hs']; [|by apply Hall].
      exists c1. by apply Hold.
    + intros id c cv Hid Hc. apply Hold; [|by apply Hconts].
      rewrite Hids; [done|]. intros ->.
      rewrite Hnew in Hid by left. done.
    + rewrite Hsize.
      assert (size (Containers (kernel w1)) = S (size (Containers (kernel w))))
        as ->; [|cbn [length]; lia].
      unfold w1. simpl. apply map_size_insert_None. apply Hnew. left.
    + rewrite Hout', Hout. simpl. by rewrite <-app_assoc.
    + by rewrite Hprocs'.
Qed.

Hypothesis range_order_perm : ∀ n l, range_order n l ≡ₚ l.

(** X11: with an empty registry, [StartAll] and [StopAll] return without
    printing or changing anything, a snapshot of the monitor is the
    header alone, and [SendMessage] reports the error for all ids. *)
Theorem empty_registry (w : world) :
  Containers (kernel w) = ∅ →
  StartAll range_order w = Some (next_range w) ∧
  StopAll range_order w = Some (next_range w) ∧
  Monitor_snapshot range_order w = Some (observe [MonitorHeader] w) ∧
  ∀ fromID toID msg,
    SendMessage fromID toID msg w = Some (emit MessagingError w).
Proof.
  intros Hempty.
  assert (Hnil : ∀ n, range_order n (map_to_list (Containers (kernel w))) = []).
  { intros n. apply Permutation_nil_r.
    by rewrite range_order_perm, Hempty, map_to_list_empty. }
  split; [|split; [|split]].
  - unfold StartAll, range_Containers. by rewrite Hnil.
  - unfold StopAll, range_Containers. by rewrite Hnil.
  - unfold Monitor_snapshot, range_Containers. simpl. rewrite Hnil. reflexivity.
  - intros a b m. unfold SendMessage. by rewrite Hempty, lookup_empty.
Qed.

End Creations.

Lemma creations_retrievable_witness :
  ∃ w', run in_order (creations [("c1", ("WebServer", 512));
                                 ("c2", ("Database", 1024))]) NewKernel
        = Some w' ∧
    size (Containers (kernel w')) = 2%nat.
Proof.
  destruct (creations_retrievable in_order
              [("c1", ("WebServer", 512)); ("c2", ("Database", 1024))] NewKernel)
    as (w' & Hrun & _ & _ & Hsize & _).
  - apply (bool_decide_unpack _). vm_compute. reflexivity.
  - intros s _. simpl. apply lookup_empty.
  - exists w'. split; [exact Hrun|]. rewrite Hsize. vm_compute. reflexivity.
Defined.

Lemma empty_registry_witness :
  StartAll in_order NewKernel = Some (next_range NewKernel) ∧
  Monitor_snapshot in_order NewKernel = Some (observe [MonitorHeader] NewKernel).
Proof.
  destruct (empty_registry in_order demo_perm NewKernel) as (H1 & _ & H3 & _).
  - reflexivity.
  - split; [exact H1|exact H3].
Defined.

(** ** The resource simulator *)

Lemma int_wrap_small z : - 2 ^ 63 ≤ z < 2 ^ 63 → int_wrap z = z.
Proof.
  intros Hz. unfold int_wrap.
  change (2 ^ 64) with (2 * 2 ^ 63) in *.
  rewrite Z.mod_small; lia.
Qed.

Lemma simulated_memory r n cv :
  0 ≤ n < 50 →
  - 2 ^ 63 + 25 ≤ Container.MemoryMB cv < 2 ^ 63 - 49 →
  Container.MemoryMB (simulated r n cv) = Container.MemoryMB cv + n - 25.
Proof.
  intros Hn Hm. unfold simulated. simpl.
  rewrite (int_wrap_small (Container.MemoryMB cv + n)) by lia.
  by rewrite int_wrap_small by lia.
Qed.

Lemma simulate_range rF rI (l : list (string * loc)) v :
  NoDup l.*2 →
  Forall (λ kc, is_Some (conts v !! kc.2)) l →
  ∃ v', for_range l (simulate_body rF rI) v = Some v' ∧
    procs v' = procs v ∧ kernel v' = kernel v ∧ stdout v' = stdout v ∧
    goroutines v' = goroutines v ∧ ranges v' = ranges v ∧
    (∀ c, c ∉ l.*2 → conts v' !! c = conts v !! c) ∧
    (∀ id c cv, (id, c) ∈ l → conts v !! c = Some cv →
       conts v' !! c = Some (simulated (rF id) (rI id) cv)).
Proof.
  revert v. induction l as [|[id0 c0] l IH]; intros v Hnd Hlive.
  - exists v. repeat split; try done. intros id c cv Hin. by apply elem_of_nil in Hin.
  - simpl in Hnd. apply NoDup_cons in Hnd as [Hc0 Hnd].
    apply Forall_cons in Hlive as [[cv0 Hcv0] Hlive]. simpl in Hcv0.
    set (v1 := upd_conts <[c0 := simulated (rF id0) (rI id0) cv0]> v).
    assert (Hbody : simulate_body rF rI (id0, c0) v = Some v1).
    { unfold simulate_body. simpl. by rewrite Hcv0. }
    assert (Hother : ∀ c, c ∈ l.*2 → conts v1 !! c = conts v !! c).
    { intros c Hc. simpl. rewrite lookup_insert_ne; [done|]. by intros ->. }
    destruct (IH v1 Hnd) as (v' & Hrun & Hp & Hk & Ho & Hg & Hr & Hout & Hin).
    { apply Forall_forall. intros kc Hkc. rewrite Hother.
      - by apply (proj1 (Forall_forall _ _) Hlive).
      - by apply list_elem_of_fmap_2. }
    exists v'. split.
    { change (for_range ((id0, c0) :: l) (simulate_body rF rI) v)
        with (simulate_body rF rI (id0, c0) v ≫= for_range l (simulate_body rF rI)).
      rewrite Hbody. exact Hrun. }
    rewrite Hp, Hk, Ho, Hg, Hr. do 5 (split; [done|]). split.
    + intros c Hc. simpl in Hc. apply not_elem_of_cons in Hc as [Hne Hc].
      rewrite Hout by done. simpl. by rewrite lookup_insert_ne.
    + intros id c cv Hic Hcv. apply elem_of_cons in Hic as [[= -> ->]|Hic].
      * rewrite Hout by done. simpl. rewrite lookup_insert_eq. congruence.
      * apply Hin; [done|]. rewrite Hother; [done|].
        by apply (list_elem_of_fmap_2 snd l (id, c)).
Qed.

Section Simulator.

Variable range_order : nat → list (string * loc) → list (string * loc).
Hypothesis range_order_perm : ∀ n l, range_order n l ≡ₚ l.

Variable rand_Float64 : string → float.
Variable rand_Intn : string → Z.

(** X12: in a state where the registered containers are live and no two
    ids lead to the same container, one iteration of the simulator
    returns.  Every registered container gets the CPU load drawn for its
    id times 100 and its memory moved by the value drawn from [0, 50)
    minus 25, that is by -25 to +24 when this does not leave the range of
    [int]; its id, name and processes are kept.  Processes, registry,
    standard output, pending goroutines and unregistered containers are
    untouched, and the pointers stay live. *)
Theorem simulate_spec (w : world) :
  registry_ok w →
  (∀ id1 id2 c, Containers (kernel w) !! id1 = Some c →
     Containers (kernel w) !! id2 = Some c → id1 = id2) →
  ∃ w', simulate range_order rand_Float64 rand_Intn w = Some w' ∧
    procs w' = procs w ∧ kernel w' = kernel w ∧ stdout w' = stdout w ∧
    goroutines w' = goroutines w ∧
    (∀ id c cv, Containers (kernel w) !! id = Some c → conts w !! c = Some cv →
       ∃ cv', conts w' !! c = Some cv' ∧
         Container.ID cv' = Container.ID cv ∧
         Container.Name cv' = Container.Name cv ∧
         Container.Processes cv' = Container.Processes cv ∧
         Container.CPULoad cv' = (rand_Float64 id * 100)%float ∧
         (0 ≤ rand_Intn id < 50 →
          - 2 ^ 63 + 25 ≤ Container.MemoryMB cv < 2 ^ 63 - 49 →
          Container.MemoryMB cv' = Container.MemoryMB cv + rand_Intn id - 25 ∧
          Container.MemoryMB cv - 25 ≤ Container.MemoryMB cv'
            ≤ Container.MemoryMB cv + 24)) ∧
    (∀ c, (∀ id, Containers (kernel w) !! id ≠ Some c) →
       conts w' !! c = conts w !! c) ∧
    registry_ok w'.
Proof.
  intros Hok Hinj.
  set (l := range_order (ranges w) (map_to_list (Containers (kernel w)))).
  assert (Hl : ∀ id c, (id, c) ∈ l ↔ Containers (kernel w) !! id = Some c).
  { intros id c. unfold l. rewrite range_order_perm. apply elem_of_map_to_list. }
  assert (Hnd : NoDup l.*2).
  { apply NoDup_fmap_2_strong.
    - intros [id1 c1] [id2 c2] H1 H2 E. simpl in E. subst c2.
      apply Hl in H1, H2. f_equal. by apply (Hinj id1 id2 c1).
    - unfold l. rewrite range_order_perm. apply NoDup_map_to_list. }
  destruct (simulate_range rand_Float64 rand_Intn l (next_range w) Hnd)
    as (w' & Hrun & Hp & Hk & Ho & Hg & _ & Hout & Hin).
  { apply Forall_forall. intros [id c] Hic. apply Hl in Hic. simpl.
    destruct (registry_ok_lookup w id c Hok Hic) as (cv & Hcv & _). eauto. }
  simpl in Hp, Hk, Ho, Hg, Hout, Hin.
  assert (Hreg : ∀ id c cv, Containers (kernel w) !! id = Some c →
            conts w !! c = Some cv →
            conts w' !! c = Some (simulated (rand_Float64 id) (rand_Intn id) cv)).
  { intros id c cv Hid Hcv. apply Hin; [by apply Hl|done]. }
  exists w'. split; [exact Hrun|]. do 4 (split; [done|]).
  split; [|split].
  - intros id c cv Hid Hcv. eexists. split; [by apply Hreg|].
    do 4 (split; [reflexivity|]). intros Hn Hm.
    rewrite simulated_memory by done. lia.
  - intros c Hc. apply Hout. intros Hcl.
    apply list_elem_of_fmap in Hcl as ([id c'] & -> & Hic). apply Hl in Hic.
    by apply (Hc id).
  - unfold registry_ok. rewrite Hk. intros id c Hid. simpl.
    destruct (registry_ok_lookup w id c Hok Hid) as (cv & Hcv & Hps).
    rewrite (Hreg id c cv Hid Hcv). simpl. unfold procs_ok. by rewrite Hp.
Qed.

End Simulator.

Lemma demo_inj id1 id2 c :
  Containers (kernel demo) !! id1 = Some c →
  Containers (kernel demo) !! id2 = Some c → id1 = id2.
Proof.
  intros H1 H2.
  apply (proj2 (elem_of_map_to_list _ _ _)) in H1.
  apply (proj2 (elem_of_map_to_list _ _ _)) in H2.
  assert (E : map_to_list (Containers (kernel demo))
              = [("c1", 1%positive); ("c2", 2%positive)] :> list (string * loc))
    by (vm_compute; reflexivity).
  rewrite E in H1, H2.
  rewrite !elem_of_cons, elem_of_nil in H1, H2.
  destruct H1 as [H1|[H1|[]]]; destruct H2 as [H2|[H2|[]]];
    injection H1 as E1 E1'; injection H2 as E2 E2'; congruence.
Defined.

Lemma simulate_spec_witness :
  ∃ w', simulate in_order (λ _, 0.5%float) (λ _, 30) demo = Some w' ∧
    ∃ cv', conts w' !! 1%positive = Some cv' ∧
      Container.MemoryMB cv' = 517 ∧ Container.CPULoad cv' = 50%float.
Proof.
  destruct (simulate_spec in_order demo_perm (λ _, 0.5%float) (λ _, 30) demo
              demo_ok demo_inj)
    as (w' & Hrun & _ & _ & _ & _ & Hreg & _).
  exists w'. split; [exact Hrun|].
  destruct (Hreg "c1" 1%positive
              (Container.mk "c1" "WebServer" 512 0%float [1%positive; 2%positive]))
    as (cv' & Hcv' & _ & _ & _ & Hcpu & Hmem).
  - vm_compute. reflexivity.
  - exact demo_c1.
  - exists cv'. split; [exact Hcv'|]. split.
    + destruct Hmem as [-> _]; simpl; lia.
    + rewrite Hcpu. vm_compute. reflexivity.
Defined.

(** ** Monitor beside the other goroutines *)

#[global] Instance recounts_refl : Reflexive recounts.
Proof. by intros w. Qed.

#[global] Instance recounts_trans : Transitive recounts.
Proof.
  intros w1 w2 w3 (Hp & Hk & Hc) (Hp' & Hk' & Hc').
  split; [congruence|]. split; [congruence|]. intros c. by rewrite Hc', Hc.
Qed.



Lemma simulate_body_recounts rF rI kc w w' :
  simulate_body rF rI kc w = Some w' → recounts w w'.
Proof.
  unfold simulate_body. destruct (conts w !! kc.2) as [cv|] eqn:Hcv; [|done].
  simpl. intros [= <-]. split; [done|]. split; [done|]. intros c. simpl.
  destruct (decide (kc.2 = c)) as [<-|Hne].
  - by rewrite lookup_insert_eq, Hcv.
  - by rewrite lookup_insert_ne.
Qed.

Section Beside.

Variable range_order : nat → list (string * loc) → list (string * loc).
Variable Sleep : Z → world → world.
Hypothesis range_order_perm : ∀ n l, range_order n l ≡ₚ l.

Lemma simulate_recounts rF rI w w' :
  simulate range_order rF rI w = Some w' → recounts w w'.
Proof.
  unfold simulate. intros H. transitivity (next_range w); [done|]. revert H.
  apply (for_range_inv recounts). intros kc v v1 _.
  apply simulate_body_recounts.
Qed.



Lemma blocks_length w blocks :
  registry_ok w → Forall (snapshot_block w) blocks →
  length (concat blocks)
  = (length blocks * S (size (Containers (kernel w))))%nat.
Proof.
  intros Hok Hall. induction Hall as [|block blocks Hb _ IH]; [done|].
  simpl. rewrite length_app, IH, (snapshot_block_length w block) by done. lia.
Qed.

(** X14: when nothing happens during the sleeps, [Monitor] prints
    [cycles] times the header and one row per registered id, and nothing
    when [cycles] is not positive. *)
Theorem Monitor_output_length (interval cycles : Z) (w : world) :
  registry_ok w →
  (∀ d v, Sleep d v = v) →
  ∃ w', Monitor range_order Sleep interval cycles w = Some w' ∧
    length (stdout w')
    = (length (stdout w)
       + Z.to_nat cycles * S (size (Containers (kernel w))))%nat.
Proof.
  intros Hok Hquiet.
  assert (Hsleep_ok : ∀ d v, registry_ok v → registry_ok (Sleep d v))
    by (intros d v; by rewrite Hquiet).
  destruct (Monitor_loop_run range_order Sleep range_order_perm Hsleep_ok
              interval (Z.to_nat cycles) w Hok) as (w' & Hloop & Hrun).
  exists w'. split; [exact Hloop|].
  destruct (Monitor_run_quiet Sleep interval _ w w' Hquiet Hrun)
    as (_ & _ & blocks & Hlen & Hall & Hout).
  by rewrite Hout, length_app, (blocks_length w), Hlen.
Qed.

End Beside.

Lemma Monitor_output_length_witness :
  ∃ w', Monitor in_order no_sleep 1000 3 demo = Some w' ∧
    length (stdout w') = 11%nat.
Proof.
  destruct (Monitor_output_length in_order no_sleep demo_perm 1000 3 demo demo_ok)
    as (w' & Hrun & Hlen).
  - intros d v. reflexivity.
  - exists w'. split; [exact Hrun|]. rewrite Hlen. vm_compute. reflexivity.
Defined.


(** ** The goroutine of a process, step by step *)

(** The goroutine is never held up: with a next statement and a live
    process, it has a step. *)
Lemma goroutine_step_progress p ph w :
  active ph → is_Some (procs w !! p) → is_Some (goroutine_step p ph w).
Proof.
  intros Hact [pv Hp]. destruct ph as [|[|l ls]| |]; simpl in *; try done.
  - rewrite Hp. simpl. eauto.
  - rewrite Hp. simpl. eauto.
Qed.

Lemma goroutine_steps_print p lines w :
  goroutine_steps (length lines) p (Printing lines, w)
  = Some (Printing [], foldl (λ w l, emit (Printed l) w) w lines).
Proof.
  revert w. induction lines as [|l lines IH]; intros w; [done|].
  simpl. apply IH.
Qed.

Lemma goroutine_steps_app n m p s :
  goroutine_steps (n + m) p s
  = goroutine_steps n p s ≫= goroutine_steps m p.
Proof.
  revert s. induction n as [|n IH]; intros s; [done|].
  simpl. destruct (goroutine_step p s.1 s.2) as [s1|]; [|done].
  simpl. apply IH.
Qed.

(** [goroutine_return] is the body taken at once: the steps of the
    goroutine in a row, from the call of the action to the assignment of
    the state, and the goroutine leaving the pending ones. *)
Lemma goroutine_steps_return i p pv lines w :
  goroutines w !! i = Some p → procs w !! p = Some pv →
  Process.Action pv = Returns lines →
  ∃ w1, goroutine_steps (S (S (length lines))) p (Spawned, w) = Some (Done, w1) ∧
    goroutine_return i w = Some (upd_goroutines (delete i) w1).
Proof.
  intros Hi Hp Ha.
  set (wl := foldl (λ w l, emit (Printed l) w) w lines).
  exists (upd_procs <[p := Process.with_State Completed pv]> wl). split.
  - assert (H1 : goroutine_steps 1 p (Spawned, w) = Some (Printing lines, w)).
    { simpl. rewrite Hp. simpl. by rewrite Ha. }
    assert (H2 : goroutine_steps 1 p (Printing [], wl)
              = Some (Done, upd_procs <[p := Process.with_State Completed pv]> wl)).
    { simpl. unfold wl. destruct (emit_lines_frame lines w) as (-> & _).
      by rewrite Hp. }
    replace (S (S (length lines))) with (1 + (length lines + 1))%nat by lia.
    rewrite goroutine_steps_app, H1. simpl.
    rewrite goroutine_steps_app, goroutine_steps_print. exact H2.
  - unfold goroutine_return. rewrite Hi. simpl. rewrite Hp. simpl.
    by rewrite Ha.
Qed.

Section Fair.

Variable env : world → world → Prop.
Variable p : loc.
Variable lines : list string.
Variable steps : nat → phase * world.
Variable mine : nat → bool.

Hypothesis env_keeps : keeps_action env p.

Hypothesis steps_mine :
  ∀ n, mine n = true →
       goroutine_step p (steps n).1 (steps n).2 = Some (steps (S n)).
Hypothesis steps_env :
  ∀ n, mine n = false →
       (steps (S n)).1 = (steps n).1 ∧ env (steps n).2 (steps (S n)).2.
Hypothesis fair :
  ∀ n, active (steps n).1 → ∃ m, (n ≤ m)%nat ∧ mine m = true.

(** While only the rest of the program runs, the goroutine stays where
    it is and its process stays live with the same action. *)
Lemma env_stretch d n :
  (∀ j, (n ≤ j < n + d)%nat → mine j = false) →
  returning lines p (steps n).2 →
  (steps (n + d)).1 = (steps n).1 ∧ returning lines p (steps (n + d)).2.
Proof.
  induction d as [|d IH]; intros Henv Hret.
  - by rewrite Nat.add_0_r.
  - destruct IH as [Hph (pv & Hp & Ha)]; [intros j Hj; apply Henv; lia|done|].
    destruct (steps_env (n + d)) as [Hph' Hstep]; [apply Henv; lia|].
    replace (n + S d)%nat with (S (n + d)) by lia.
    split; [congruence|].
    destruct (env_keeps _ _ pv Hstep Hp) as (pv' & Hp' & Ha').
    exists pv'. split; [done|congruence].
Qed.

Lemma first_mine d n :
  mine (n + d) = true →
  ∃ k, mine (n + k) = true ∧ ∀ j, (n ≤ j < n + k)%nat → mine j = false.
Proof.
  revert n. induction d as [|d IH]; intros n Hm.
  - exists O. split; [done|]. intros j Hj. lia.
  - destruct (mine n) eqn:Hn.
    + exists O. rewrite Nat.add_0_r. split; [done|]. intros j Hj. lia.
    + destruct (IH (S n)) as (k & Hk & Hbefore).
      { by replace (S n + d)%nat with (n + S d)%nat by lia. }
      exists (S k). replace (n + S k)%nat with (S n + k)%nat by lia.
      split; [done|]. intros j Hj.
      destruct (decide (j = n)) as [->|Hne]; [done|]. apply Hbefore. lia.
Qed.

(** The goroutine reaches the end of its body, and the state of the
    process is [Completed] at that moment. *)
Lemma goroutine_completes k n :
  (steps_left lines (steps n).1 ≤ k)%nat →
  active (steps n).1 →
  ((steps n).1 = Spawned ∨ ∃ ls, (steps n).1 = Printing ls) →
  returning lines p (steps n).2 →
  ∃ m, (n ≤ m)%nat ∧ (steps m).1 = Done ∧
       state_of (steps m).2 p = Some Completed.
Proof.
  revert n. induction k as [|k IH]; intros n Hk Hact Hph Hret.
  - destruct Hph as [E|[ls E]]; rewrite E in Hk; simpl in Hk; lia.
  - destruct (fair n Hact) as (m & Hnm & Hm).
    replace m with (n + (m - n))%nat in Hm by lia.
    destruct (first_mine _ _ Hm) as (d & Hd & Hbefore).
    destruct (env_stretch d n Hbefore Hret) as [Hsame (pv & Hp & Ha)].
    pose proof (steps_mine _ Hd) as Hstep. rewrite Hsame in Hstep.
    rewrite <-Hsame in Hk, Hact.
    destruct Hph as [E|[[|l ls] E]]; rewrite E in Hstep; simpl in Hstep.
    + rewrite Hp in Hstep. simpl in Hstep. rewrite Ha in Hstep.
      injection Hstep as Hnext.
      destruct (IH (S (n + d))) as (m' & Hle & Hdone & Hst).
      * rewrite <-Hnext. simpl. rewrite Hsame, E in Hk. simpl in Hk. lia.
      * by rewrite <-Hnext.
      * right. exists lines. by rewrite <-Hnext.
      * rewrite <-Hnext. simpl. by exists pv.
      * exists m'. split; [lia|done].
    + rewrite Hp in Hstep. simpl in Hstep. injection Hstep as Hnext.
      exists (S (n + d)). split; [lia|]. rewrite <-Hnext. simpl. split; [done|].
      unfold state_of. simpl. by rewrite lookup_insert_eq.
    + injection Hstep as Hnext.
      destruct (IH (S (n + d))) as (m' & Hle & Hdone & Hst).
      * rewrite <-Hnext. simpl. rewrite Hsame, E in Hk. simpl in Hk. lia.
      * by rewrite <-Hnext.
      * right. exists ls. by rewrite <-Hnext.
      * rewrite <-Hnext. simpl. by exists pv.
      * exists m'. split; [lia|done].
Qed.

End Fair.

Lemma beside_keeps_action range_order p : keeps_action (beside range_order) p.
Proof.
  intros v v' pv [a Ha] Hp. destruct a as [e|rF rI]; simpl in Ha.
  - destruct (exec_process range_order e v v' p pv Ha Hp) as (s' & Hp' & _).
    by exists (Process.with_State s' pv).
  - destruct (simulate_recounts range_order rF rI v v' Ha) as (E & _).
    exists pv. by rewrite E.
Qed.

(** C8: [StartProcesses] returns with every process as it was and nothing
    printed: it has only started one goroutine for each process of the
    container that is [Running], and no statement of these goroutines has
    run yet.  For such a process whose action terminates, take any
    unending run of its goroutine beside the rest of the program, whose
    steps are of any size and can do anything but free the process or
    assign its action; they can stop the process first.  If the scheduler
    is fair to the goroutine, the run reaches a moment at which the
    goroutine is past its last statement and the state of the process is
    [Completed]. *)
Theorem StartProcesses_eventually_Completed (c : loc) (cv : Container.t)
    (w : world) :
  conts w !! c = Some cv →
  procs_ok w (Container.Processes cv) →
  ∃ w', StartProcesses c w = Some w' ∧
    same_state w w' ∧ stdout w' = stdout w ∧
    goroutines w' = goroutines w ++ running w (Container.Processes cv) ∧
    ∀ p pv lines,
      p ∈ Container.Processes cv → procs w !! p = Some pv →
      Process.State pv = Running → Process.Action pv = Returns lines →
      p ∈ goroutines w' ∧
      ∀ env steps mine,
        keeps_action env p →
        fair_run env p w' steps mine →
        ∃ n, (steps n).1 = Done ∧ state_of (steps n).2 p = Some Completed.
Proof.
  intros Hc Hok.
  set (w' := upd_goroutines
               (λ g, g ++ running w (Container.Processes cv)) w).
  assert (Hstart : StartProcesses c w = Some w').
  { unfold StartProcesses. rewrite Hc. simpl.
    by apply (StartProcesses_range _ w w). }
  exists w'. split; [exact Hstart|]. split; [done|]. split; [done|].
  split; [done|]. intros p pv lines Hin Hp Hr Ha. split.
  { simpl. apply elem_of_app. right. apply list_elem_of_filter.
    split; [|done]. unfold state_of. by rewrite Hp, <-Hr. }
  intros env steps mine Hkeeps (H0 & Hmine & Henv & Hfair).
  destruct (goroutine_completes env p lines steps mine Hkeeps Hmine Henv Hfair
              (S (S (length lines))) O)
    as (m & _ & Hdone & Hst).
  - by rewrite H0.
  - by rewrite H0.
  - left. by rewrite H0.
  - rewrite H0. simpl. by exists pv.
  - by exists m.
Qed.

Lemma demo_steps_S n :
  demo_steps (S n)
  = match demo_schedule n with
    | None =>
        default (demo_steps n)
          (goroutine_step 1%positive (demo_steps n).1 (demo_steps n).2)
    | Some a =>
        ((demo_steps n).1,
         default (demo_steps n).2 (act in_order a (demo_steps n).2))
    end.
Proof. reflexivity. Qed.

(** From step 6 on, the rest of the program goes on alone. *)
Lemma demo_late_step n :
  (demo_steps (S (6 + n))).1 = (demo_steps (6 + n)).1 ∧
  beside in_order (demo_steps (6 + n)).2 (demo_steps (S (6 + n))).2.
Proof.
  rewrite demo_steps_S.
  change (demo_schedule (6 + n))
    with (Some (Step (NewProcess (exampleProcess "idle" 0)))).
  generalize (demo_steps (6 + n)). intros s. split; [reflexivity|].
  exists (Step (NewProcess (exampleProcess "idle" 0))). reflexivity.
Qed.

Lemma demo_steps_late n : (demo_steps (6 + n)).1 = Done.
Proof.
  induction n as [|n IH]; [vm_compute; reflexivity|].
  replace (6 + S n)%nat with (S (6 + n)) by lia.
  destruct (demo_late_step n) as [-> _]. exact IH.
Qed.

Lemma demo_fair_run :
  fair_run (beside in_order) 1%positive demo_started demo_steps demo_mine.
Proof.
  split; [reflexivity|]. split; [|split].
  - intros n Hn.
    destruct n as [|n]; [discriminate Hn|].
    destruct n as [|n]; [vm_compute; reflexivity|].
    destruct n as [|n]; [vm_compute; reflexivity|].
    destruct n as [|n]; [discriminate Hn|].
    destruct n as [|n]; [vm_compute; reflexivity|].
    destruct n as [|n]; [vm_compute; reflexivity|].
    discriminate Hn.
  - intros n Hn.
    destruct n as [|n].
    { split; [vm_compute; reflexivity|].
      exists (Step (CallStopProcesses 1%positive)). vm_compute. reflexivity. }
    destruct n as [|n]; [discriminate Hn|].
    destruct n as [|n]; [discriminate Hn|].
    destruct n as [|n].
    { split; [vm_compute; reflexivity|].
      exists (Step (CallSendMessage "c1" "c2" "ping")). vm_compute. reflexivity. }
    destruct n as [|n]; [discriminate Hn|].
    destruct n as [|n]; [discriminate Hn|].
    exact (demo_late_step n).
  - intros n Hact. destruct (decide (n ≤ 5)%nat) as [Hle|Hgt].
    + exists 5%nat. split; [lia|reflexivity].
    + exfalso. replace n with (6 + (n - 6))%nat in Hact by lia.
      by rewrite demo_steps_late in Hact.
Qed.

Lemma StartProcesses_eventually_Completed_witness :
  StartProcesses 1%positive demo = Some demo_started ∧
  state_of (demo_steps 1).2 1%positive = Some Stopped ∧
  ∃ n, (demo_steps n).1 = Done ∧
       state_of (demo_steps n).2 1%positive = Some Completed.
Proof.
  destruct (StartProcesses_eventually_Completed 1%positive _ demo demo_c1
              demo_c1_ok)
    as (w' & Hstart & _ & _ & _ & Hlive).
  assert (E : w' = demo_started).
  { assert (Hd : StartProcesses 1%positive demo = Some demo_started)
      by (vm_compute; reflexivity).
    congruence. }
  subst w'. split; [exact Hstart|]. split; [vm_compute; reflexivity|].
  destruct (Hlive 1%positive (exampleProcess "HTTP Server" 5)
              ["Process HTTP Server started"; "Process HTTP Server completed"])
    as [_ Hruns].
  - vm_compute. left.
  - vm_compute. reflexivity.
  - reflexivity.
  - reflexivity.
  - apply (Hruns (beside in_order) demo_steps demo_mine).
    + apply beside_keeps_action.
    + exact demo_fair_run.
Defined.
